(** * The Pi relay server: route handlers and authentication middleware

    A shallow embedding of the two Express servers of the repository,
    [src/server.js] and its sibling variant (the second source file, whose
    middleware is introduced as "Enhanced Authentication Middleware"), and
    the properties the specification states about them.

    What is modelled, and how:
    - JavaScript values are the values JSON can carry plus [undefined];
      property access, optional chaining, truthiness and template-literal
      conversion follow the language (access on [null] throws a TypeError).
    - An asynchronous handler is a computation in a small monad that can
      throw and that records every outbound axios call it makes, in order.
    - The upstream API is a function from an outbound call to the raw HTTP
      answer; [axios] resolves on a 2xx status and rejects otherwise.
    - [process.env] and [req.headers] are finite maps from strings to
      strings.
    - A request is taken as the route handlers see it, after the global
      middleware (helmet, cors, express.json, morgan, the rate limiter) has
      passed it on. *)

From Stdlib Require Import ZArith String Ascii List Bool Lia DecimalString.
From stdpp Require Import base option gmap strings.
Import ListNotations.

Local Open Scope Z_scope.
Local Open Scope string_scope.
Set Warnings "-register-all".

(** ** JavaScript values *)

Module Js.

(** JSON values plus [undefined].  Numbers are the integer-valued ones: the
    handlers only test a number for zero, copy it and print it. *)
Inductive JsVal : Type :=
| JUndefined
| JNull
| JBool (b : bool)
| JNum (n : Z)
| JStr (s : string)
| JArr (items : list JsVal)
| JObj (fields : list (string * JsVal)).

Inductive JsError : Type :=
| AxiosError (message : string) (response : option (Z * JsVal))
| TypeError (message : string).

(** [error.message] *)
Definition message (e : JsError) : string :=
  match e with
  | AxiosError m _ => m
  | TypeError m => m
  end.

(** [error.response]; only axios errors that got an HTTP answer have one. *)
Definition response (e : JsError) : option (Z * JsVal) :=
  match e with
  | AxiosError _ r => r
  | TypeError _ => None
  end.

Inductive Outcome (A : Type) : Type :=
| Ok (a : A)
| Throw (e : JsError).
Arguments Ok {A} a.
Arguments Throw {A} e.

(** [!!v] *)
Definition truthy (v : JsVal) : bool :=
  match v with
  | JUndefined | JNull => false
  | JBool b => b
  | JNum n => negb (n =? 0)%Z
  | JStr s => negb (String.eqb s EmptyString)
  | JArr _ | JObj _ => true
  end.

(** Own property of an object literal or of a parsed JSON object. *)
Fixpoint own (fields : list (string * JsVal)) (k : string) : option JsVal :=
  match fields with
  | [] => None
  | (k', v) :: rest => if String.eqb k' k then Some v else own rest k
  end.

Definition field (fields : list (string * JsVal)) (k : string) : JsVal :=
  match own fields k with
  | Some v => v
  | None => JUndefined
  end.

(** [v.k] for the property names the handlers read: none of them lives on a
    prototype, so primitives and arrays answer [undefined]. *)
Definition get (v : JsVal) (k : string) : Outcome JsVal :=
  match v with
  | JUndefined =>
      Throw (TypeError ("Cannot read properties of undefined (reading '" +:+ k +:+ "')"))
  | JNull =>
      Throw (TypeError ("Cannot read properties of null (reading '" +:+ k +:+ "')"))
  | JObj fields => Ok (field fields k)
  | _ => Ok JUndefined
  end.

(** [v?.k] *)
Definition get_opt (v : JsVal) (k : string) : JsVal :=
  match v with
  | JObj fields => field fields k
  | _ => JUndefined
  end.

(** [a || b] *)
Definition or_else (a b : JsVal) : JsVal := if truthy a then a else b.

Definition string_of_Z (n : Z) : string := NilZero.string_of_int (Z.to_int n).

(** The double nearest to the integer [m >= 2^53] (ties to even), with the
    spacing of the doubles at that value. *)
Definition nearest_double (m : Z) : Z * Z :=
  let ulp := (2 ^ (Z.log2 m - 52))%Z in
  let q := (m / ulp)%Z in
  let r := (m mod ulp)%Z in
  let q' := if (2 * r <? ulp)%Z then q
            else if (ulp <? 2 * r)%Z then (q + 1)%Z
            else if Z.even q then q else (q + 1)%Z in
  ((q' * ulp)%Z, if (q' =? 2 ^ 53)%Z then (2 * ulp)%Z else ulp).

(** Whether the decimal [x] reads back as the double [v] of spacing [ulp]:
    it lies within half a spacing of [v] (a quarter below a power of two),
    the ends included when the mantissa of [v] is even. *)
Definition reads_back (v ulp x : Z) : bool :=
  let mantissa := (v / ulp)%Z in
  let below := if (mantissa =? 2 ^ 52)%Z then ulp else (2 * ulp)%Z in
  let lo := (4 * v - below)%Z in
  let hi := (4 * v + 2 * ulp)%Z in
  if Z.even mantissa
  then ((lo <=? 4 * x) && (4 * x <=? hi))%Z
  else ((lo <? 4 * x) && (4 * x <? hi))%Z.

(** The shortest decimal that reads back as [v]: the multiple of the
    largest power of ten [10^j], [j <= fuel], that does; of two, the one
    nearer to [v], and on a tie the one with the even digit string.
    Returns the decimal and [j]. *)
Fixpoint shortest_decimal (v ulp : Z) (fuel : nat) : Z * Z :=
  let j := Z.of_nat fuel in
  let p := (10 ^ j)%Z in
  let x1 := (v / p * p)%Z in
  let x2 := (x1 + p)%Z in
  let ok1 := reads_back v ulp x1 && (0 <? x1)%Z in
  let ok2 := reads_back v ulp x2 in
  let pick :=
    if ok1 && ok2
    then if (v - x1 <? x2 - v)%Z then Some x1
         else if (x2 - v <? v - x1)%Z then Some x2
         else if Z.even (x1 / p) then Some x1 else Some x2
    else if ok1 then Some x1
    else if ok2 then Some x2
    else None in
  match pick, fuel with
  | Some x, _ => (x, j)
  | None, O => (v, 0%Z)
  | None, S fuel' => shortest_decimal v ulp fuel'
  end.

(** The digits [ds] in exponent notation: [d.ddde+N]. *)
Definition exponent_text (ds : string) (n : Z) : string :=
  match ds with
  | EmptyString => EmptyString
  | String d EmptyString => String d EmptyString +:+ "e+" +:+ string_of_Z n
  | String d rest => String d EmptyString +:+ "." +:+ rest +:+ "e+" +:+ string_of_Z n
  end.

(** [String(m)] for a positive integer-valued number: below 2^53 the
    integer itself; above, the shortest decimal of the nearest double, in
    exponent notation from 10^21 on, and [Infinity] past the largest
    double. *)
Definition positive_text (m : Z) : string :=
  if (m <? 2 ^ 53)%Z then string_of_Z m
  else
    let (v, ulp) := nearest_double m in
    if (2 ^ 1024 <=? v)%Z then "Infinity"
    else
      let (x, j) := shortest_decimal v ulp (Z.to_nat (Z.log2 v)) in
      if (x <? 10 ^ 21)%Z then string_of_Z x
      else exponent_text (string_of_Z (x / 10 ^ j))
             (Z.of_nat (String.length (string_of_Z x)) - 1).

(** [String(n)] for a number of integer value [n]; a value that is not a
    double stands for the double nearest to it. *)
Definition number_text (n : Z) : string :=
  if (n <? 0)%Z then "-" +:+ positive_text (- n) else positive_text n.

(** [Array.prototype.join]: an item that is [null] or [undefined] prints as
    the empty string, any other through [f]. *)
Definition item_string (f : JsVal -> Outcome string) (x : JsVal) : Outcome string :=
  match x with
  | JUndefined | JNull => Ok EmptyString
  | _ => f x
  end.

Fixpoint join (f : JsVal -> Outcome string) (l : list JsVal) : Outcome string :=
  match l with
  | [] => Ok EmptyString
  | x :: rest =>
      match item_string f x with
      | Throw e => Throw e
      | Ok s =>
          match rest with
          | [] => Ok s
          | _ :: _ =>
              match join f rest with
              | Throw e => Throw e
              | Ok t => Ok (s +:+ "," +:+ t)
              end
          end
      end
  end.

(** Conversion of a value in a template literal.  An object converts through
    [Object.prototype.toString] unless an own [toString] property, which in
    parsed JSON is never callable, shadows it; an array joins its items. *)
Fixpoint toString (v : JsVal) : Outcome string :=
  match v with
  | JUndefined => Ok "undefined"
  | JNull => Ok "null"
  | JBool true => Ok "true"
  | JBool false => Ok "false"
  | JNum n => Ok (number_text n)
  | JStr s => Ok s
  | JArr items => join toString items
  | JObj fields =>
      match own fields "toString" with
      | Some _ => Throw (TypeError "Cannot convert object to primitive value")
      | None => Ok "[object Object]"
      end
  end.

(** [JSON.stringify] of an object literal leaves out the properties whose
    value is [undefined]; this is the body [res.json] sends. *)
Definition defined (v : JsVal) : bool :=
  match v with
  | JUndefined => false
  | _ => true
  end.

Definition json (fields : list (string * JsVal)) : list (string * JsVal) :=
  List.filter (fun kv => defined (snd kv)) fields.

(** [s.split(' ')] *)
Fixpoint split_space (s : string) : list string :=
  match s with
  | EmptyString => [EmptyString]
  | String c rest =>
      if Ascii.eqb c " "
      then EmptyString :: split_space rest
      else match split_space rest with
           | [] => [String c EmptyString]
           | w :: ws => String c w :: ws
           end
  end.

(** [h.startsWith(p)] *)
Definition startsWith (h p : string) : bool := String.prefix p h.

End Js.

(** ** Handlers as computations *)

Module Http.
Import Js.

Inductive Method : Type := GET | POST.

(** One axios call: [axios.get(url, {headers})] or
    [axios.post(url, data, {headers})]. *)
Record UpstreamCall : Type := {
  call_method : Method;
  call_url : string;
  call_data : option JsVal;
  call_headers : list (string * string)
}.

(** What comes back on the wire: nothing (a network failure, with the
    reason axios reports) or the HTTP answer axios settles on, redirects
    followed, with its status and parsed body. *)
Inductive HttpReply : Type :=
| NoReply (reason : string)
| Reply (status : Z) (data : JsVal).

(** What a request runs against: the environment variables, the upstream
    API and the clock read by [new Date().toISOString()]. *)
Record World : Type := {
  process_env : gmap string string;
  upstream : UpstreamCall -> HttpReply;
  now : string
}.

(** A computation threads the list of outbound calls made so far and ends
    with a value or a thrown error. *)
Definition Task (A : Type) : Type :=
  list UpstreamCall -> Outcome A * list UpstreamCall.

Definition ret {A} (a : A) : Task A := fun calls => (Ok a, calls).

Definition bind {A B} (m : Task A) (k : A -> Task B) : Task B :=
  fun calls =>
    match m calls with
    | (Ok a, calls') => k a calls'
    | (Throw e, calls') => (Throw e, calls')
    end.

(** [try { m } catch (error) { h error }] *)
Definition try_catch {A} (m : Task A) (h : JsError -> Task A) : Task A :=
  fun calls =>
    match m calls with
    | (Ok a, calls') => (Ok a, calls')
    | (Throw e, calls') => h e calls'
    end.

(** A step that cannot touch the network: property access, conversion. *)
Definition lift {A} (o : Outcome A) : Task A := fun calls => (o, calls).

Record AxiosResponse : Type := { status : Z; data : JsVal }.

(** axios with its default [validateStatus]: the promise resolves on a
    status in 200..299 and rejects with [error.response] set otherwise, or
    with no [error.response] when there was no answer. *)
Definition settle (r : HttpReply) : Outcome AxiosResponse :=
  match r with
  | NoReply reason => Throw (AxiosError reason None)
  | Reply s d =>
      if ((200 <=? s) && (s <? 300))%Z
      then Ok {| status := s; data := d |}
      else Throw (AxiosError ("Request failed with status code " +:+ string_of_Z s)
                             (Some (s, d)))
  end.

Definition axios (w : World) (c : UpstreamCall) : Task AxiosResponse :=
  fun calls => (settle (upstream w c), (calls ++ [c])%list).

Definition axios_get (w : World) (url : string) (hs : list (string * string))
  : Task AxiosResponse :=
  axios w {| call_method := GET; call_url := url; call_data := None;
             call_headers := hs |}.

Definition axios_post (w : World) (url : string) (d : JsVal)
    (hs : list (string * string)) : Task AxiosResponse :=
  axios w {| call_method := POST; call_url := url; call_data := Some d;
             call_headers := hs |}.

(** The request line as Express dispatches on it. *)
Inductive Route : Type :=
| GetBalance                       (* GET /api/balance *)
| PostApprove                      (* POST /api/approve *)
| PostComplete                     (* POST /api/complete *)
| GetPayment (paymentId : string)  (* GET /api/payment/:paymentId *)
| GetHealth                        (* GET /api/health *)
| Unmatched.                       (* any other method and path *)

(** [req.headers] has lower-case names; [req.body] is the object
    express.json() leaves there (an empty one when nothing was parsed);
    [req.query] is the parsed query string. *)
Record Request : Type := {
  route : Route;
  headers : gmap string string;
  body : list (string * JsVal);
  query : list (string * string)
}.

(** [res.status(code).json(obj)], the body already serialised. *)
Record Response : Type := {
  code : Z;
  payload : list (string * JsVal)
}.

(** [res.status(code).json(obj)] with a status that is not fixed in the
    source: Express sends no body with a 204 or a 304 (of the statuses an
    upstream failure can bring, that is the 304).  An empty [payload] under
    such a status stands for the empty body. *)
Definition bodiless (code : Z) : bool := ((code =? 204) || (code =? 304))%Z.

Definition send (code : Z) (fields : list (string * JsVal)) : Response :=
  {| code := code; payload := if bodiless code then [] else json fields |}.

(** [req.user] *)
Record User : Type := {
  uid : JsVal;
  username : JsVal;
  walletAddress : JsVal
}.

(** The middleware either answers itself or calls [next()] with
    [req.user] set. *)
Inductive Auth : Type :=
| Answered (r : Response)
| Next (u : User).

(** A template-literal hole filled from [process.env]. *)
Definition env_text (o : option string) : string :=
  match o with
  | Some s => s
  | None => "undefined"
  end.

(** [process.env.X || fallback] and [!process.env.X]: a variable that is
    unset or empty is falsy. *)
Definition env_set (o : option string) : bool :=
  match o with
  | Some s => negb (String.eqb s EmptyString)
  | None => false
  end.

(** [process.env.X === s] *)
Definition env_is (o : option string) (s : string) : bool :=
  match o with
  | Some v => String.eqb v s
  | None => false
  end.

(** A template-literal hole filled with [authHeader.split(' ')[1]]. *)
Definition item_text (o : option string) : string :=
  match o with
  | Some s => s
  | None => "undefined"
  end.

(** How the process comes up: the module throws while loading, or
    [app.listen(PORT)] is reached. *)
Inductive Startup : Type :=
| Crashed (reason : string)
| Listening (port : JsVal).

(** [error.response?.status || 500] *)
Definition status_or_500 (e : JsError) : Z :=
  match response e with
  | Some (s, _) => if (s =? 0)%Z then 500 else s
  | None => 500
  end.

End Http.

Declare Scope task_scope.
Delimit Scope task_scope with task.
Notation "'let*' x ':=' m 'in' k" := (Http.bind m (fun x => k))
  (at level 10, x name, m at level 100, k at level 200) : task_scope.

(** ** [src/server.js] *)

Module Server.
Import Js Http.
Local Open Scope task_scope.

Definition requiredEnvVars : list string := ["PI_API_KEY"; "FRONTEND_URL"].

(** [requiredEnvVars.forEach(...)]: the first variable that is unset or
    empty throws. *)
Fixpoint validate (env : gmap string string) (vars : list string) : option string :=
  match vars with
  | [] => None
  | varName :: rest =>
      if env_set (env !! varName) then validate env rest
      else Some (varName +:+ " missing in .env")
  end.

Definition PI_API_URL (env : gmap string string) : string :=
  if env_is (env !! "NODE_ENV") "production"
  then "https://api.minepi.com/v2"
  else "https://api.testnet.minepi.com/v2".

Definition PORT (env : gmap string string) : JsVal :=
  match env !! "PORT" with
  | Some p => JStr p
  | None => JUndefined
  end.

(** Loading the module up to [app.listen(PORT, ...)]. *)
Definition start (env : gmap string string) : Startup :=
  match validate env requiredEnvVars with
  | Some reason => Crashed reason
  | None => Listening (PORT env)
  end.

(** The [message] the rate limiter is configured with. *)
Definition apiLimiter_message : list (string * JsVal) :=
  json [("error", JStr "Too many requests from this IP, please try again later")].

Section Handlers.
Variable w : World.

Let env := process_env w.

Definition service_headers : list (string * string) :=
  [("Authorization", "Key " +:+ env_text (env !! "PI_API_KEY"));
   ("Content-Type", "application/json")].

Definition authorization_required : Response :=
  {| code := 401; payload := json [("error", JStr "Authorization header required")] |}.

Definition invalid_token : Response :=
  {| code := 401; payload := json [("error", JStr "Invalid authentication token")] |}.

(** The [catch] block of the middleware. *)
Definition authentication_failed (error : JsError) : Response :=
  send (status_or_500 error)
    (("error", JStr "Authentication failed")
     :: if env_is (env !! "NODE_ENV") "development"
        then [("details", JStr (message error))]
        else []).

Definition authenticatePiRequest (req : Request) : Task Auth :=
  try_catch
    (match headers req !! "authorization" with
     | None => ret (Answered authorization_required)
     | Some authHeader =>
         if negb (startsWith authHeader "Bearer ")
         then ret (Answered authorization_required)
         else
           let accessToken := nth_error (split_space authHeader) 1 in
           let* r := axios_get w (PI_API_URL env +:+ "/me")
                       [("Authorization", "Bearer " +:+ item_text accessToken);
                        ("Content-Type", "application/json")] in
           let* uid := lift (get (data r) "uid") in
           if negb (truthy uid)
           then ret (Answered invalid_token)
           else
             let* username := lift (get (data r) "username") in
             let* wallet_address := lift (get (data r) "wallet_address") in
             ret (Next {| uid := uid; username := username;
                          walletAddress := wallet_address |})
     end)
    (fun error => ret (Answered (authentication_failed error))).

Definition balance (req : Request) (user : User) : Task Response :=
  try_catch
    (let* u := lift (toString (uid user)) in
     let* response := axios_get w (PI_API_URL env +:+ "/accounts/" +:+ u +:+ "/balance")
                        service_headers in
     let* available := lift (get (data response) "available_balance") in
     let* locked := lift (get (data response) "locked_balance") in
     ret {| code := 200;
            payload := json [("available", available);
                             ("locked", locked);
                             ("currency", JStr "PI");
                             ("last_updated", JStr (now w))] |})
    (fun error =>
       ret {| code := 500; payload := json [("error", JStr "Failed to fetch balance")] |}).

Definition approve (req : Request) (user : User) : Task Response :=
  try_catch
    (let paymentId := field (body req) "paymentId" in
     if negb (truthy paymentId)
     then ret {| code := 400; payload := json [("error", JStr "Missing payment ID")] |}
     else
       let* p := lift (toString paymentId) in
       let* response := axios_post w (PI_API_URL env +:+ "/payments/" +:+ p +:+ "/approve")
                          (JObj []) service_headers in
       let* status := lift (get (data response) "status") in
       let* amount := lift (get (data response) "amount") in
       let* memo := lift (get (data response) "memo") in
       ret {| code := 200;
              payload := json [("status", status);
                               ("payment_id", paymentId);
                               ("amount", amount);
                               ("memo", memo)] |})
    (fun error =>
       ret {| code := 500; payload := json [("error", JStr "Payment approval failed")] |}).

Definition complete (req : Request) (user : User) : Task Response :=
  try_catch
    (let paymentId := field (body req) "paymentId" in
     let txid := field (body req) "txid" in
     if negb (truthy paymentId) || negb (truthy txid)
     then ret {| code := 400;
                 payload := json [("error", JStr "Missing payment ID or transaction ID")] |}
     else
       let* p := lift (toString paymentId) in
       let* response := axios_post w (PI_API_URL env +:+ "/payments/" +:+ p +:+ "/complete")
                          (JObj [("txid", txid)]) service_headers in
       let* status := lift (get (data response) "status") in
       let* transaction := lift (get (data response) "transaction") in
       ret {| code := 200;
              payload := json [("status", status);
                               ("payment_id", paymentId);
                               ("txid", txid);
                               ("verified", get_opt transaction "verified");
                               ("completed_at", JStr (now w))] |})
    (fun error =>
       ret {| code := 500; payload := json [("error", JStr "Payment completion failed")] |}).

Definition payment (paymentId : string) (req : Request) (user : User) : Task Response :=
  try_catch
    (let* response := axios_get w (PI_API_URL env +:+ "/payments/" +:+ paymentId)
                        service_headers in
     let* identifier := lift (get (data response) "identifier") in
     let* amount := lift (get (data response) "amount") in
     let* status := lift (get (data response) "status") in
     let* created_at := lift (get (data response) "created_at") in
     let* transaction := lift (get (data response) "transaction") in
     ret {| code := 200;
            payload := json [("id", identifier);
                             ("amount", amount);
                             ("status", status);
                             ("created_at", created_at);
                             ("txid", get_opt transaction "txid");
                             ("verified", get_opt transaction "verified")] |})
    (fun error =>
       ret {| code := 500;
              payload := json [("error", JStr "Failed to fetch payment details")] |}).

Definition health : Response :=
  {| code := 200;
     payload := json [("status", JStr "operational");
                      ("version", JStr "1.0.0");
                      ("environment",
                       JStr (if env_set (env !! "NODE_ENV")
                             then env_text (env !! "NODE_ENV")
                             else "development"));
                      ("timestamp", JStr (now w))] |}.

(** The error-handling middleware, for a fault passed to [next(err)]. *)
Definition error_handler (err : JsError) : Response :=
  {| code := 500; payload := json [("error", JStr "Internal server error")] |}.

Definition not_found : Response :=
  {| code := 404; payload := json [("error", JStr "Endpoint not found")] |}.

(** [app.get(path, authenticatePiRequest, handler)] *)
Definition guarded (req : Request) (handler : Request -> User -> Task Response)
  : Task Response :=
  let* a := authenticatePiRequest req in
  match a with
  | Answered r => ret r
  | Next user => handler req user
  end.

Definition app (req : Request) : Task Response :=
  match route req with
  | GetBalance => guarded req balance
  | PostApprove => guarded req approve
  | PostComplete => guarded req complete
  | GetPayment paymentId => guarded req (payment paymentId)
  | GetHealth => ret health
  | Unmatched => ret not_found
  end.

(** One request from arrival to answer, with the outbound calls it made. *)
Definition serve (req : Request) : Outcome Response * list UpstreamCall :=
  app req [].

End Handlers.
End Server.

(** ** The enhanced variant (second source file)

    Same routes but for payment details, which it does not register.  Its
    upstream base URL is [piConfig.mainnet.apiUrl], read from a
    configuration module that is not part of the sources: it is a parameter
    here. *)

Module Enhanced.
Import Js Http.
Local Open Scope task_scope.

(** [process.env.PORT || 443] *)
Definition PORT (env : gmap string string) : JsVal :=
  if env_set (env !! "PORT") then JStr (env_text (env !! "PORT")) else JNum 443.

(** Loading the module up to [app.listen(PORT, ...)]. *)
Definition start (env : gmap string string) : Startup :=
  if negb (env_set (env !! "PI_API_KEY")) then Crashed "PI_API_KEY missing in .env"
  else if negb (env_set (env !! "FRONTEND_URL")) then Crashed "FRONTEND_URL missing in .env"
  else Listening (PORT env).

Definition apiLimiter_message : list (string * JsVal) :=
  json [("error", JStr "Too many requests from this IP, please try again later")].

Section Handlers.
Variable PI_API_URL : string.
Variable w : World.

Let env := process_env w.

Definition PI_API_KEY : option string := env !! "PI_API_KEY".

Definition service_headers : list (string * string) :=
  [("Authorization", "Key " +:+ env_text PI_API_KEY);
   ("Content-Type", "application/json")].

(** [error.response?.data?.message || fallback] *)
Definition upstream_message (error : JsError) (fallback : string) : JsVal :=
  or_else (match response error with
           | Some (_, d) => get_opt d "message"
           | None => JUndefined
           end)
          (JStr fallback).

(** The [catch] block every handler of this variant ends with. *)
Definition relay_failure (error : JsError) (fallback : string) : Response :=
  send (status_or_500 error) [("error", upstream_message error fallback)].

Definition authorization_required : Response :=
  {| code := 401; payload := json [("error", JStr "Authorization header required")] |}.

Definition invalid_token : Response :=
  {| code := 401; payload := json [("error", JStr "Invalid authentication token")] |}.

(** The [catch] block of the middleware. *)
Definition authentication_failed (error : JsError) : Response :=
  relay_failure error "Authentication failed".

Definition authenticatePiRequest (req : Request) : Task Auth :=
  try_catch
    (match headers req !! "authorization" with
     | None => ret (Answered authorization_required)
     | Some authHeader =>
         if negb (startsWith authHeader "Bearer ")
         then ret (Answered authorization_required)
         else
           let token := nth_error (split_space authHeader) 1 in
           let* r := axios_get w (PI_API_URL +:+ "/me")
                       [("Authorization", "Bearer " +:+ item_text token);
                        ("Content-Type", "application/json")] in
           let* uid := lift (get (data r) "uid") in
           if negb (truthy uid)
           then ret (Answered invalid_token)
           else
             let* username := lift (get (data r) "username") in
             let* wallet_address := lift (get (data r) "wallet_address") in
             ret (Next {| uid := uid; username := username;
                          walletAddress := wallet_address |})
     end)
    (fun error => ret (Answered (authentication_failed error))).

Definition balance (req : Request) (user : User) : Task Response :=
  try_catch
    (let* u := lift (toString (uid user)) in
     let* response := axios_get w (PI_API_URL +:+ "/accounts/" +:+ u +:+ "/balance")
                        service_headers in
     let* available_balance := lift (get (data response) "available_balance") in
     let* locked_balance := lift (get (data response) "locked_balance") in
     ret {| code := 200;
            payload := json [("available_balance", available_balance);
                             ("locked_balance", locked_balance);
                             ("currency", JStr "PI");
                             ("last_updated", JStr (now w))] |})
    (fun error => ret (relay_failure error "Failed to fetch balance")).

(** [typeof v === 'string'] *)
Definition is_string (v : JsVal) : bool :=
  match v with
  | JStr _ => true
  | _ => false
  end.

Definition approve (req : Request) (user : User) : Task Response :=
  try_catch
    (let paymentId := field (body req) "paymentId" in
     if negb (truthy paymentId) || negb (is_string paymentId)
     then ret {| code := 400; payload := json [("error", JStr "Invalid payment ID")] |}
     else
       let* p := lift (toString paymentId) in
       let* response := axios_post w (PI_API_URL +:+ "/payments/" +:+ p +:+ "/approve")
                          (JObj []) service_headers in
       let* status := lift (get (data response) "status") in
       ret {| code := 200;
              payload := json [("status", status);
                               ("payment_id", paymentId);
                               ("timestamp", JStr (now w))] |})
    (fun error => ret (relay_failure error "Payment approval failed")).

Definition complete (req : Request) (user : User) : Task Response :=
  try_catch
    (let paymentId := field (body req) "paymentId" in
     let txid := field (body req) "txid" in
     if negb (truthy paymentId) || negb (truthy txid)
     then ret {| code := 400;
                 payload := json [("error", JStr "Missing payment ID or transaction ID")] |}
     else
       let* p := lift (toString paymentId) in
       let* response := axios_post w (PI_API_URL +:+ "/payments/" +:+ p +:+ "/complete")
                          (JObj [("txid", txid)]) service_headers in
       let* status := lift (get (data response) "status") in
       ret {| code := 200;
              payload := json [("status", status);
                               ("payment_id", paymentId);
                               ("txid", txid);
                               ("completed_at", JStr (now w))] |})
    (fun error => ret (relay_failure error "Payment completion failed")).

Definition health : Response :=
  {| code := 200;
     payload := json [("status", JStr "operational");
                      ("version", JStr "1.0.0");
                      ("timestamp", JStr (now w))] |}.

(** The error-handling middleware, for a fault passed to [next(err)]. *)
Definition error_handler (err : JsError) : Response :=
  {| code := 500;
     payload := json [("error", JStr "Internal server error");
                      ("message", if env_is (env !! "NODE_ENV") "development"
                                  then JStr (message err)
                                  else JUndefined)] |}.

Definition not_found : Response :=
  {| code := 404; payload := json [("error", JStr "Endpoint not found")] |}.

Definition guarded (req : Request) (handler : Request -> User -> Task Response)
  : Task Response :=
  let* a := authenticatePiRequest req in
  match a with
  | Answered r => ret r
  | Next user => handler req user
  end.

Definition app (req : Request) : Task Response :=
  match route req with
  | GetBalance => guarded req balance
  | PostApprove => guarded req approve
  | PostComplete => guarded req complete
  | GetHealth => ret health
  | GetPayment _ | Unmatched => ret not_found
  end.

Definition serve (req : Request) : Outcome Response * list UpstreamCall :=
  app req [].

End Handlers.
End Enhanced.

(** ** Vocabulary of the specification *)

Module Spec.
Import Js Http.

(** The error taxonomy of the specification. *)
Inductive ErrorClass : Type :=
| MissingCredential
| InvalidCredential
| AuthFailure
| InvalidInput
| BalanceFetchFailed
| ApprovalFailed
| CompletionFailed
| FetchFailed
| NotFound
| InternalFault.

(** The class each message literal of the sources stands for. *)
Definition class_table : list (string * ErrorClass) :=
  [("Authorization header required", MissingCredential);
   ("Invalid authentication token", InvalidCredential);
   ("Authentication failed", AuthFailure);
   ("Missing payment ID", InvalidInput);
   ("Invalid payment ID", InvalidInput);
   ("Missing payment ID or transaction ID", InvalidInput);
   ("Failed to fetch balance", BalanceFetchFailed);
   ("Payment approval failed", ApprovalFailed);
   ("Payment completion failed", CompletionFailed);
   ("Failed to fetch payment details", FetchFailed);
   ("Endpoint not found", NotFound);
   ("Internal server error", InternalFault)].

Fixpoint class_of_message (table : list (string * ErrorClass)) (m : string)
  : option ErrorClass :=
  match table with
  | [] => None
  | (m', c) :: rest => if String.eqb m' m then Some c else class_of_message rest m
  end.

Definition error_class (r : Response) : option ErrorClass :=
  match own (payload r) "error" with
  | Some (JStr m) => class_of_message class_table m
  | _ => None
  end.

(** A response counts as a success when its status is in 200..299. *)
Definition is_success (r : Response) : bool :=
  ((200 <=? code r) && (code r <? 300))%Z.

Definition has_field (k : string) (r : Response) : bool :=
  match own (payload r) k with
  | Some _ => true
  | None => false
  end.

(** The field names of a body, in order. *)
Definition shape (r : Response) : list string := List.map fst (payload r).

(** [authHeader?.startsWith('Bearer ')] *)
Definition bearer (req : Request) : bool :=
  match headers req !! "authorization" with
  | Some authHeader => startsWith authHeader "Bearer "
  | None => false
  end.

(** [authHeader.split(' ')[1]], as it is printed into the outbound header. *)
Definition access_token (authHeader : string) : string :=
  item_text (nth_error (split_space authHeader) 1).

(** The identity-verification call for a token, against a base URL. *)
Definition me_call (base token : string) : UpstreamCall :=
  {| call_method := GET;
     call_url := base +:+ "/me";
     call_data := None;
     call_headers := [("Authorization", "Bearer " +:+ token);
                      ("Content-Type", "application/json")] |}.

(** The text of a string up to its first space, and what follows that
    space: the words "between the first and second space" are
    [until_space] of [after_space]. *)
Fixpoint until_space (s : string) : string :=
  match s with
  | EmptyString => EmptyString
  | String c rest => if Ascii.eqb c " " then EmptyString else String c (until_space rest)
  end.

Fixpoint after_space (s : string) : option string :=
  match s with
  | EmptyString => None
  | String c rest => if Ascii.eqb c " " then Some rest else after_space rest
  end.

Definition between_spaces (s : string) : option string :=
  match after_space s with
  | Some rest => Some (until_space rest)
  | None => None
  end.

(** What the middleware makes of the answer to the identity call, given the
    response its [catch] block builds. *)
Definition verdict (failed : JsError -> Response) (invalid : Response)
    (reply : HttpReply) : Auth :=
  match settle reply with
  | Throw e => Answered (failed e)
  | Ok r =>
      match get (data r) "uid" with
      | Throw e => Answered (failed e)
      | Ok u =>
          if truthy u
          then Next {| uid := u;
                       username := get_opt (data r) "username";
                       walletAddress := get_opt (data r) "wallet_address" |}
          else Answered invalid
      end
  end.

(** The routes each server puts behind [authenticatePiRequest]. *)
Definition server_protected (r : Route) : bool :=
  match r with
  | GetBalance | PostApprove | PostComplete | GetPayment _ => true
  | GetHealth | Unmatched => false
  end.

Definition enhanced_protected (r : Route) : bool :=
  match r with
  | GetBalance | PostApprove | PostComplete => true
  | GetPayment _ | GetHealth | Unmatched => false
  end.

(** The balance lookup for the user [u], with the headers [hs]. *)
Definition balance_call (base : string) (hs : list (string * string)) (u : string)
  : UpstreamCall :=
  {| call_method := GET;
     call_url := base +:+ "/accounts/" +:+ u +:+ "/balance";
     call_data := None;
     call_headers := hs |}.

(** The body of a balance answer built from the upstream body [d], with the
    two balance fields named [available] and [locked]. *)
Definition balance_body (available locked : string) (d : JsVal) (clock : string)
  : list (string * JsVal) :=
  json [(available, get_opt d "available_balance");
        (locked, get_opt d "locked_balance");
        ("currency", JStr "PI");
        ("last_updated", JStr clock)].

(** What a successful balance request looks like from outside: a Bearer
    header [h]; an identity call whose answer carries a uid that prints as
    [u]; then the balance lookup for accounts/[u]/balance, answered with the
    body [d]; and status 200 with the balance body made from [d]. *)
Definition balance_success (base : string) (hs : list (string * string))
    (available locked : string) (w : World) (req : Request)
    (r : Response) (calls : list UpstreamCall) : Prop :=
  exists h u s d s' d',
    headers req !! "authorization" = Some h /\
    upstream w (me_call base (access_token h)) = Reply s' d' /\
    toString (get_opt d' "uid") = Ok u /\
    calls = [me_call base (access_token h); balance_call base hs u] /\
    call_url (balance_call base hs u) = base +:+ "/accounts/" +:+ u +:+ "/balance" /\
    upstream w (balance_call base hs u) = Reply s d /\
    code r = 200%Z /\
    payload r = balance_body available locked d (now w).

(** The approval of payment [p], with the headers [hs]. *)
Definition approve_call (base : string) (hs : list (string * string)) (p : string)
  : UpstreamCall :=
  {| call_method := POST;
     call_url := base +:+ "/payments/" +:+ p +:+ "/approve";
     call_data := Some (JObj []);
     call_headers := hs |}.

(** Two answers with the same status and the same field names. *)
Definition same_contract (r1 r2 : Response) : Prop :=
  code r1 = code r2 /\ shape r1 = shape r2.

(** A request whose required body field is falsy: the handlers answer 400
    before calling the payments API. *)
Definition stops_at_validation (req : Request) : bool :=
  match route req with
  | PostApprove => negb (truthy (field (body req) "paymentId"))
  | PostComplete => negb (truthy (field (body req) "paymentId"))
                    || negb (truthy (field (body req) "txid"))
  | _ => false
  end.

(** A body lacks a field when it has no such property. *)
Definition absent (b : list (string * JsVal)) (k : string) : bool :=
  match own b k with
  | Some _ => false
  | None => true
  end.

(** An approve request without [paymentId], or a complete request without
    [paymentId] or without [txid]. *)
Definition lacks_required_field (req : Request) : bool :=
  match route req with
  | PostApprove => absent (body req) "paymentId"
  | PostComplete => absent (body req) "paymentId" || absent (body req) "txid"
  | _ => false
  end.

(** The message [src/server.js] answers such a request with. *)
Definition missing_field_message (r : Route) : string :=
  match r with
  | PostApprove => "Missing payment ID"
  | _ => "Missing payment ID or transaction ID"
  end.

(** Whether the process refused to come up. *)
Definition crashed (s : Startup) : bool :=
  match s with
  | Crashed _ => true
  | Listening _ => false
  end.

(** A setting is missing when its variable is unset or empty. *)
Definition missing (env : gmap string string) (name : string) : bool :=
  negb (env_set (env !! name)).

(** The errors that can reach a [catch] block: an axios rejection of some
    answer, or a TypeError. *)
Definition caught (e : JsError) : Prop :=
  (exists reply, settle reply = Throw e) \/ (exists m, e = TypeError m).

(** The error-shape rule: a failure carries an [error] field, a success
    does not; an answer with status 304 has no body at all. *)
Definition well_shaped (r : Response) : Prop :=
  if (code r =? 304)%Z
  then payload r = []
  else has_field "error" r = negb (is_success r).

(** A computation that always ends with a well-shaped answer. *)
Definition answers (m : Task Response) : Prop :=
  forall calls, exists r calls', m calls = (Ok r, calls') /\ well_shaped r.

(** A computation only ever adds outbound calls to those already made. *)
Definition appends {A} (m : Task A) : Prop :=
  forall calls, exists extra, snd (m calls) = (calls ++ extra)%list.

(** The handler each server runs behind the middleware on a route. *)
Definition server_handler (w : World) (r : Route) : Request -> User -> Task Response :=
  match r with
  | GetBalance => Server.balance w
  | PostApprove => Server.approve w
  | PostComplete => Server.complete w
  | GetPayment p => Server.payment w p
  | GetHealth | Unmatched => fun _ _ => ret Server.not_found
  end.

Definition enhanced_handler (base : string) (w : World) (r : Route)
  : Request -> User -> Task Response :=
  match r with
  | GetBalance => Enhanced.balance base w
  | PostApprove => Enhanced.approve base w
  | PostComplete => Enhanced.complete base w
  | GetPayment _ | GetHealth | Unmatched => fun _ _ => ret Enhanced.not_found
  end.

(** The completion of payment [p] with transaction [txid]. *)
Definition complete_call (base : string) (hs : list (string * string)) (p : string)
    (txid : JsVal) : UpstreamCall :=
  {| call_method := POST;
     call_url := base +:+ "/payments/" +:+ p +:+ "/complete";
     call_data := Some (JObj [("txid", txid)]);
     call_headers := hs |}.

(** The lookup of payment [p]. *)
Definition payment_call (base : string) (hs : list (string * string)) (p : string)
  : UpstreamCall :=
  {| call_method := GET;
     call_url := base +:+ "/payments/" +:+ p;
     call_data := None;
     call_headers := hs |}.

(** The user the middleware builds from the body [d] of the identity
    answer. *)
Definition identity (d : JsVal) : User :=
  {| uid := get_opt d "uid";
     username := get_opt d "username";
     walletAddress := get_opt d "wallet_address" |}.

(** What lets a request through the middleware: a Bearer header, and a 2xx
    answer to the identity call whose body carries a truthy [uid]. *)
Definition passes (base : string) (w : World) (req : Request) (user : User)
    (calls : list UpstreamCall) : Prop :=
  exists h s d,
    headers req !! "authorization" = Some h /\
    startsWith h "Bearer " = true /\
    upstream w (me_call base (access_token h)) = Reply s d /\
    (200 <= s < 300)%Z /\
    truthy (get_opt d "uid") = true /\
    user = identity d /\
    calls = [me_call base (access_token h)].

(** The operation call a route builds for a verified user: the balance
    lookup for the printed uid, the approval or completion posted for the
    printed [paymentId] of the body, the lookup of the payment named in the
    path.  The ids are put into the URL as they print, unescaped. *)
Definition operation_call (base : string) (hs : list (string * string))
    (req : Request) (user : User) (c : UpstreamCall) : Prop :=
  match route req with
  | GetBalance =>
      exists u, toString (uid user) = Ok u /\ c = balance_call base hs u
  | PostApprove =>
      exists p, toString (field (body req) "paymentId") = Ok p /\
                c = approve_call base hs p
  | PostComplete =>
      exists p, toString (field (body req) "paymentId") = Ok p /\
                c = complete_call base hs p (field (body req) "txid")
  | GetPayment p => c = payment_call base hs p
  | GetHealth | Unmatched => False
  end.

(** A computation that answers, and adds no outbound call or exactly one,
    which satisfies [P]. *)
Definition one_call_of (P : UpstreamCall -> Prop) (m : Task Response) : Prop :=
  forall calls, exists r extra,
    m calls = (Ok r, (calls ++ extra)%list) /\
    (extra = [] \/ exists c, extra = [c] /\ P c).

(** The outbound calls of one request: none; or the identity call with the
    caller's token alone; or the identity call, answered with a user,
    followed by the one operation call of the route, which carries the
    service headers [hs]. *)
Definition call_discipline (base : string) (hs : list (string * string))
    (w : World) (req : Request) (calls : list UpstreamCall) : Prop :=
  calls = [] \/
  exists h,
    headers req !! "authorization" = Some h /\
    startsWith h "Bearer " = true /\
    (calls = [me_call base (access_token h)] \/
     exists c user,
       calls = [me_call base (access_token h); c] /\
       passes base w req user [me_call base (access_token h)] /\
       operation_call base hs req user c /\
       call_headers c = hs).

(** The message the enhanced variant falls back to when a failed operation
    brings no message of its own. *)
Definition fallback_message (r : Route) : string :=
  match r with
  | GetBalance => "Failed to fetch balance"
  | PostApprove => "Payment approval failed"
  | _ => "Payment completion failed"
  end.

(** The body of a payment-details answer built from the upstream body. *)
Definition payment_body (d : JsVal) : list (string * JsVal) :=
  json [("id", get_opt d "identifier");
        ("amount", get_opt d "amount");
        ("status", get_opt d "status");
        ("created_at", get_opt d "created_at");
        ("txid", get_opt (get_opt d "transaction") "txid");
        ("verified", get_opt (get_opt d "transaction") "verified")].

(** A failure body that is exactly one of the fixed messages of the
    sources: nothing of what the upstream sent is in it. *)
Definition fixed_failure (r : Response) : Prop :=
  exists m c, payload r = [("error", JStr m)] /\
              class_of_message class_table m = Some c.

(** What a successful complete request looks like from outside: the
    identity call; then the completion posted for the printed [paymentId]
    with the [txid] of the body; and an answer that echoes both. *)
Definition complete_success (base : string) (hs : list (string * string))
    (req : Request) (r : Response) (calls : list UpstreamCall) : Prop :=
  exists h p,
    headers req !! "authorization" = Some h /\
    toString (field (body req) "paymentId") = Ok p /\
    calls = [me_call base (access_token h);
             complete_call base hs p (field (body req) "txid")] /\
    code r = 200%Z /\
    own (payload r) "payment_id" = Some (field (body req) "paymentId") /\
    own (payload r) "txid" = Some (field (body req) "txid").

(** The situations in which the two servers are not required to agree, for
    the answers [r1] of [src/server.js] and [r2] of the enhanced variant:
    the health check; payment details, unless [src/server.js] answers 404;
    [details] added in development mode; two successes on approve, or with
    [verified], [available] or [locked] in the body; a 500 of
    [src/server.js] against another failure status; a 400 of the enhanced
    variant against another status. *)
Definition departs (w : World) (req : Request) (r1 r2 : Response) : Prop :=
  route req = GetHealth \/
  ((exists p, route req = GetPayment p) /\ code r1 <> 404%Z) \/
  (env_is (process_env w !! "NODE_ENV") "development" = true /\
   has_field "details" r1 = true) \/
  (is_success r1 = true /\ is_success r2 = true /\
   (route req = PostApprove \/ has_field "verified" r1 = true \/
    has_field "available" r1 = true \/ has_field "locked" r1 = true)) \/
  (code r1 = 500%Z /\ is_success r2 = false /\ code r2 <> 500%Z) \/
  (code r2 = 400%Z /\ code r1 <> 400%Z).

(** Two outcomes of the middleware side by side: the same user, or answers
    that agree or depart. *)
Definition verdicts_agree (w : World) (req : Request) (a1 a2 : Auth) : Prop :=
  match a1, a2 with
  | Next u1, Next u2 => u1 = u2
  | Answered r1, Answered r2 => same_contract r1 r2 \/ departs w req r1 r2
  | _, _ => False
  end.

(** Two handlers side by side, from the same calls made so far. *)
Definition handlers_agree (w : World) (req : Request)
    (m1 m2 : Task Response) : Prop :=
  forall calls, exists r1 r2 c1 c2,
    m1 calls = (Ok r1, c1) /\ m2 calls = (Ok r2, c2) /\
    (same_contract r1 r2 \/ departs w req r1 r2).

(** An answer without any of the field names only [src/server.js] uses. *)
Definition lacks_server_fields (r : Response) : Prop :=
  has_field "details" r = false /\ has_field "verified" r = false /\
  has_field "available" r = false /\ has_field "locked" r = false /\
  has_field "environment" r = false.

End Spec.

(** ** Sample worlds and requests *)

Module Samples.
Import Js Http.

Definition env : gmap string string :=
  <["PI_API_KEY" := "key"]> (<["FRONTEND_URL" := "https://app.example"]> ∅).

Definition base : string := "https://api.testnet.minepi.com/v2".

Fixpoint sent_authorization (hs : list (string * string)) : string :=
  match hs with
  | [] => EmptyString
  | (k, v) :: rest => if String.eqb k "Authorization" then v else sent_authorization rest
  end.

(** An upstream that knows token [abc] as user [u1] and payment [p1]. *)
Definition pi_api (c : UpstreamCall) : HttpReply :=
  if String.eqb (call_url c) (base +:+ "/me") then
    if String.eqb (sent_authorization (call_headers c)) "Bearer abc"
    then Reply 200 (JObj [("uid", JStr "u1"); ("username", JStr "alice")])
    else Reply 401 (JObj [("message", JStr "Unauthorized")])
  else if String.eqb (call_url c) (base +:+ "/accounts/u1/balance") then
    Reply 200 (JObj [("available_balance", JNum 5); ("locked_balance", JNum 1)])
  else if String.eqb (call_url c) (base +:+ "/payments/p1/approve") then
    Reply 200 (JObj [("status", JStr "approved"); ("amount", JNum 3);
                     ("memo", JStr "tea")])
  else NoReply "connect ECONNREFUSED".

Definition world : World :=
  {| process_env := env; upstream := pi_api; now := "2024-01-01T00:00:00.000Z" |}.

(** The same upstream, but for one URL that is answered with [reply]. *)
Definition answering (url : string) (reply : HttpReply) : World :=
  {| process_env := env;
     upstream := fun c => if String.eqb (call_url c) url then reply else pi_api c;
     now := "2024-01-01T00:00:00.000Z" |}.

(** The balance endpoint answers 200 with an empty object. *)
Definition bare_world : World :=
  answering (base +:+ "/accounts/u1/balance") (Reply 200 (JObj [])).

(** The identity endpoint answers 200 with the JSON body [null]. *)
Definition null_identity_world : World :=
  answering (base +:+ "/me") (Reply 200 JNull).

(** The approval endpoint answers 200 with the JSON body [null]. *)
Definition null_approval_world : World :=
  answering (base +:+ "/payments/p1/approve") (Reply 200 JNull).

(** The approval endpoint answers 404 with a message. *)
Definition unknown_payment_world : World :=
  answering (base +:+ "/payments/p1/approve")
    (Reply 404 (JObj [("message", JStr "Payment not found")])).

(** A balance request that carries token [abc] and names another user
    wherever a caller can put a value. *)
Definition impersonating_request : Request :=
  {| route := GetBalance;
     headers := <["authorization" := "Bearer abc"]> (<["x-user-uid" := "mallory"]> ∅);
     body := [("uid", JStr "mallory")];
     query := [("uid", "mallory")] |}.

Definition request (r : Route) (authorization : option string)
    (b : list (string * JsVal)) : Request :=
  {| route := r;
     headers := match authorization with
                | Some h => <["authorization" := h]> ∅
                | None => ∅
                end;
     body := b;
     query := [] |}.

End Samples.

Import Js Http Spec.

(** ** The monad runs as expected *)

Section TaskLaws.
Context {A B : Type}.

Lemma bind_ret (a : A) (k : A -> Task B) calls :
  bind (ret a) k calls = k a calls.
Proof. reflexivity. Qed.

Lemma bind_lift_ok (a : A) (k : A -> Task B) calls :
  bind (lift (Ok a)) k calls = k a calls.
Proof. reflexivity. Qed.

Lemma bind_lift_throw (e : JsError) (k : A -> Task B) calls :
  bind (lift (Throw e)) k calls = (Throw e, calls).
Proof. reflexivity. Qed.

Lemma bind_axios w c (k : AxiosResponse -> Task B) calls :
  bind (axios w c) k calls =
  match settle (upstream w c) with
  | Ok r => k r (calls ++ [c])%list
  | Throw e => (Throw e, (calls ++ [c])%list)
  end.
Proof. unfold bind, axios. destruct (settle (upstream w c)); reflexivity. Qed.

End TaskLaws.

(** ** What axios errors look like *)

Lemma settle_ok r a : settle r = Ok a -> r = Reply (status a) (data a) /\ (200 <= status a < 300)%Z.
Proof.
  destruct r as [m|s d]; simpl; [discriminate|].
  destruct ((200 <=? s) && (s <? 300))%Z eqn:E; [|discriminate].
  intros [= <-]. simpl. split; [reflexivity|lia].
Qed.

Lemma settle_throw r e :
  settle r = Throw e ->
  (exists m, r = NoReply m /\ e = AxiosError m None) \/
  (exists s d m, r = Reply s d /\ e = AxiosError m (Some (s, d)) /\ ~ (200 <= s < 300)%Z).
Proof.
  destruct r as [m|s d]; simpl.
  - intros [= <-]. left. eauto.
  - destruct ((200 <=? s) && (s <? 300))%Z eqn:E; [discriminate|].
    intros [= <-]. right. do 3 eexists. repeat split. lia.
Qed.

(** A status taken from a caught error is never a success status. *)
Lemma status_or_500_failure r e :
  settle r = Throw e -> ~ (200 <= status_or_500 e < 300)%Z.
Proof.
  intros H. apply settle_throw in H as [(m & -> & ->)|(s & d & m & -> & -> & Hs)];
    unfold status_or_500; simpl; [lia|].
  destruct (s =? 0)%Z eqn:E; lia.
Qed.

(** Reading a property either throws a TypeError or is the optional read. *)
Lemma get_cases v k :
  (exists m, get v k = Throw (TypeError m)) \/ get v k = Ok (get_opt v k).
Proof. destruct v; simpl; eauto. Qed.

Lemma get_ok_opt v k u : get v k = Ok u -> u = get_opt v k.
Proof. destruct v; simpl; congruence. Qed.

Lemma get_ok_any v k k' u : get v k = Ok u -> get v k' = Ok (get_opt v k').
Proof. destruct v; simpl; congruence. Qed.

(** ** The authentication middleware *)

Section Middleware.
Variable w : World.

Lemma server_auth_unauthenticated req calls :
  bearer req = false ->
  Server.authenticatePiRequest w req calls
  = (Ok (Answered Server.authorization_required), calls).
Proof.
  unfold bearer, Server.authenticatePiRequest, try_catch.
  destruct (headers req !! "authorization") as [h|]; [|reflexivity].
  intros ->. reflexivity.
Qed.

Lemma server_auth_bearer req h calls :
  headers req !! "authorization" = Some h ->
  startsWith h "Bearer " = true ->
  Server.authenticatePiRequest w req calls
  = (Ok (verdict (Server.authentication_failed w) Server.invalid_token
           (upstream w (me_call (Server.PI_API_URL (process_env w)) (access_token h)))),
     (calls ++ [me_call (Server.PI_API_URL (process_env w)) (access_token h)])%list).
Proof.
  intros Hh Hb.
  unfold Server.authenticatePiRequest, try_catch, verdict.
  rewrite Hh, Hb. cbn [negb].
  unfold axios_get. rewrite bind_axios. fold (access_token h).
  change {| call_method := GET; call_url := _; call_data := None; call_headers := _ |}
    with (me_call (Server.PI_API_URL (process_env w)) (access_token h)).
  destruct (settle _) as [r|e]; [|reflexivity].
  destruct (get_cases (data r) "uid") as [[m Hm]|Hu].
  - unfold bind, lift. rewrite Hm. reflexivity.
  - unfold bind, lift. rewrite Hu.
    rewrite (get_ok_any _ _ "username" _ Hu), (get_ok_any _ _ "wallet_address" _ Hu).
    destruct (truthy (get_opt (data r) "uid")); reflexivity.
Qed.

Lemma enhanced_auth_unauthenticated base req calls :
  bearer req = false ->
  Enhanced.authenticatePiRequest base w req calls
  = (Ok (Answered Enhanced.authorization_required), calls).
Proof.
  unfold bearer, Enhanced.authenticatePiRequest, try_catch.
  destruct (headers req !! "authorization") as [h|]; [|reflexivity].
  intros ->. reflexivity.
Qed.

Lemma enhanced_auth_bearer base req h calls :
  headers req !! "authorization" = Some h ->
  startsWith h "Bearer " = true ->
  Enhanced.authenticatePiRequest base w req calls
  = (Ok (verdict Enhanced.authentication_failed Enhanced.invalid_token
           (upstream w (me_call base (access_token h)))),
     (calls ++ [me_call base (access_token h)])%list).
Proof.
  intros Hh Hb.
  unfold Enhanced.authenticatePiRequest, try_catch, verdict.
  rewrite Hh, Hb. cbn [negb].
  unfold axios_get. rewrite bind_axios. fold (access_token h).
  change {| call_method := GET; call_url := _; call_data := None; call_headers := _ |}
    with (me_call base (access_token h)).
  destruct (settle _) as [r|e]; [|reflexivity].
  destruct (get_cases (data r) "uid") as [[m Hm]|Hu].
  - unfold bind, lift. rewrite Hm. reflexivity.
  - unfold bind, lift. rewrite Hu.
    rewrite (get_ok_any _ _ "username" _ Hu), (get_ok_any _ _ "wallet_address" _ Hu).
    destruct (truthy (get_opt (data r) "uid")); reflexivity.
Qed.

End Middleware.

(** ** Outbound calls are only ever appended *)

Lemma appends_ret {A} (a : A) : appends (ret a).
Proof. intros calls. exists []. simpl. now rewrite app_nil_r. Qed.

Lemma appends_lift {A} (o : Outcome A) : appends (lift o).
Proof. intros calls. exists []. simpl. now rewrite app_nil_r. Qed.

Lemma appends_axios w c : appends (axios w c).
Proof. intros calls. exists [c]. reflexivity. Qed.

Lemma appends_bind {A B} (m : Task A) (k : A -> Task B) :
  appends m -> (forall a, appends (k a)) -> appends (bind m k).
Proof.
  intros Hm Hk calls. unfold bind.
  destruct (Hm calls) as [e1 H1]. destruct (m calls) as [[a|e] calls']; simpl in H1; subst.
  - destruct (Hk a (calls ++ e1)%list) as [e2 H2]. exists (e1 ++ e2)%list.
    now rewrite H2, app_assoc.
  - exists e1. reflexivity.
Qed.

Lemma appends_try_catch {A} (m : Task A) (h : JsError -> Task A) :
  appends m -> (forall e, appends (h e)) -> appends (try_catch m h).
Proof.
  intros Hm Hh calls. unfold try_catch.
  destruct (Hm calls) as [e1 H1]. destruct (m calls) as [[a|e] calls']; simpl in H1; subst.
  - exists e1. reflexivity.
  - destruct (Hh e (calls ++ e1)%list) as [e2 H2]. exists (e1 ++ e2)%list.
    now rewrite H2, app_assoc.
Qed.

Lemma appends_if {A} (b : bool) (m1 m2 : Task A) :
  appends m1 -> appends m2 -> appends (if b then m1 else m2).
Proof. destruct b; auto. Qed.

Create HintDb appends.
#[local] Hint Resolve appends_ret appends_lift appends_axios : appends.

(** Walks a handler body: the combinators are taken apart, the leaves are
    closed from the hint database. *)
Ltac appends_tac :=
  repeat first
    [ apply appends_try_catch
    | apply appends_bind
    | apply appends_if
    | match goal with |- forall _, appends _ => intro end ];
  auto with appends.

Lemma server_handlers_append w req user :
  appends (Server.balance w req user) /\ appends (Server.approve w req user) /\
  appends (Server.complete w req user) /\
  forall p, appends (Server.payment w p req user).
Proof.
  unfold Server.balance, Server.approve, Server.complete, Server.payment,
    axios_get, axios_post.
  repeat split; appends_tac.
Qed.

Lemma enhanced_handlers_append base w req user :
  appends (Enhanced.balance base w req user) /\
  appends (Enhanced.approve base w req user) /\
  appends (Enhanced.complete base w req user).
Proof.
  unfold Enhanced.balance, Enhanced.approve, Enhanced.complete, axios_get, axios_post.
  repeat split; appends_tac.
Qed.

(** ** Requests that stop at the middleware, and requests that pass it *)

Section Guarded.
Variable w : World.

Lemma server_guarded_run req handler :
  Server.guarded w req handler []
  = match Server.authenticatePiRequest w req [] with
    | (Ok (Answered r), calls) => (Ok r, calls)
    | (Ok (Next user), calls) => handler req user calls
    | (Throw e, calls) => (Throw e, calls)
    end.
Proof.
  unfold Server.guarded, bind.
  destruct (Server.authenticatePiRequest w req []) as [[[r|u]|e] calls]; reflexivity.
Qed.

Lemma enhanced_guarded_run base req handler :
  Enhanced.guarded base w req handler []
  = match Enhanced.authenticatePiRequest base w req [] with
    | (Ok (Answered r), calls) => (Ok r, calls)
    | (Ok (Next user), calls) => handler req user calls
    | (Throw e, calls) => (Throw e, calls)
    end.
Proof.
  unfold Enhanced.guarded, bind.
  destruct (Enhanced.authenticatePiRequest base w req []) as [[[r|u]|e] calls]; reflexivity.
Qed.

Lemma server_protected_run req :
  server_protected (route req) = true ->
  Server.serve w req = Server.guarded w req (server_handler w (route req)) [].
Proof. unfold Server.serve, Server.app. destruct (route req); simpl; congruence. Qed.

Lemma enhanced_protected_run base req :
  enhanced_protected (route req) = true ->
  Enhanced.serve base w req
  = Enhanced.guarded base w req (enhanced_handler base w (route req)) [].
Proof. unfold Enhanced.serve, Enhanced.app. destruct (route req); simpl; congruence. Qed.

Lemma server_handler_appends r req user : appends (server_handler w r req user).
Proof.
  destruct (server_handlers_append w req user) as (? & ? & ? & ?).
  destruct r; simpl; auto with appends.
Qed.

Lemma enhanced_handler_appends base r req user :
  appends (enhanced_handler base w r req user).
Proof.
  destruct (enhanced_handlers_append base w req user) as (? & ? & ?).
  destruct r; simpl; auto with appends.
Qed.

End Guarded.

(** ** Requests without a bearer credential *)

(** C2.  A request to a protected route whose Authorization header is absent
    or does not start with the Bearer scheme is answered 401 with the
    missing-credential error, and no outbound call of any kind is made.
    [src/server.js] protects balance, approve, complete and payment details;
    the enhanced variant protects the first three and has no payment-details
    route, so it answers that one with its 404. *)
Theorem missing_bearer_answers_401_without_upstream_call base w req :
  server_protected (route req) = true ->
  bearer req = false ->
  Server.serve w req = (Ok Server.authorization_required, []) /\
  Enhanced.serve base w req
  = (Ok (if enhanced_protected (route req)
         then Enhanced.authorization_required
         else Enhanced.not_found), []) /\
  code Server.authorization_required = 401%Z /\
  payload Server.authorization_required = [("error", JStr "Authorization header required")] /\
  error_class Server.authorization_required = Some MissingCredential /\
  Enhanced.authorization_required = Server.authorization_required.
Proof.
  intros Hroute Hbearer. split; [|split].
  - rewrite server_protected_run by assumption.
    rewrite server_guarded_run, server_auth_unauthenticated by assumption.
    reflexivity.
  - destruct (enhanced_protected (route req)) eqn:Hp.
    + rewrite enhanced_protected_run by assumption.
      rewrite enhanced_guarded_run, enhanced_auth_unauthenticated by assumption.
      reflexivity.
    + unfold Enhanced.serve, Enhanced.app.
      destruct (route req); simpl in *; try discriminate; reflexivity.
  - repeat split.
Qed.

Lemma missing_bearer_witness :
  Server.serve Samples.world (Samples.request PostApprove (Some "Basic abc") [])
  = (Ok Server.authorization_required, []).
Proof.
  apply (missing_bearer_answers_401_without_upstream_call
           Samples.base Samples.world
           (Samples.request PostApprove (Some "Basic abc") [])).
  - reflexivity.
  - vm_compute. reflexivity.
Defined.

(** ** The token taken from the header *)

Lemma split_space_unfold s :
  split_space s
  = until_space s :: match after_space s with
                     | Some rest => split_space rest
                     | None => []
                     end.
Proof.
  induction s as [|c s IH]; simpl; [reflexivity|].
  destruct (Ascii.eqb c " "); [reflexivity|].
  rewrite IH. reflexivity.
Qed.

Lemma second_item_between_spaces s :
  nth_error (split_space s) 1 = between_spaces s.
Proof.
  rewrite split_space_unfold. unfold between_spaces. simpl.
  destruct (after_space s) as [rest|]; [|reflexivity].
  rewrite split_space_unfold. reflexivity.
Qed.

Lemma startsWith_app p h :
  startsWith h p = true -> exists rest, h = p +:+ rest.
Proof.
  unfold startsWith. revert h.
  induction p as [|a p IH]; intros h H.
  - exists h. reflexivity.
  - destruct h as [|b h]; [discriminate|].
    cbn [String.prefix] in H.
    destruct (ascii_dec a b) as [->|]; [|discriminate].
    destruct (IH h H) as [rest ->]. exists rest. reflexivity.
Qed.

Lemma startsWith_bearer h :
  startsWith h "Bearer " = true -> exists rest, h = "Bearer " +:+ rest.
Proof. apply startsWith_app. Qed.

(** C9.  For every header value that begins with the seven characters
    "Bearer ", the token is the text between the first and the second space
    (up to the end when there is no second space; empty when the header is
    exactly "Bearer "), the scheme check passes, and the first thing either
    server does on a protected route is the identity call carrying that
    token: the request is not turned away locally. *)
Theorem bearer_prefix_sends_token_between_spaces base w req h :
  headers req !! "authorization" = Some h ->
  startsWith h "Bearer " = true ->
  server_protected (route req) = true ->
  (exists rest, h = "Bearer " +:+ rest /\ access_token h = until_space rest) /\
  between_spaces h = Some (access_token h) /\
  bearer req = true /\
  head (snd (Server.serve w req))
  = Some (me_call (Server.PI_API_URL (process_env w)) (access_token h)) /\
  (enhanced_protected (route req) = true ->
   head (snd (Enhanced.serve base w req)) = Some (me_call base (access_token h))).
Proof.
  intros Hh Hb Hroute.
  assert (Htok : exists rest, h = "Bearer " +:+ rest /\ access_token h = until_space rest).
  { destruct (startsWith_bearer h Hb) as [rest ->]. exists rest. split; [reflexivity|].
    unfold access_token. rewrite second_item_between_spaces. reflexivity. }
  split; [exact Htok|]. split; [|split; [|split]].
  - destruct Htok as (rest & -> & Htok). rewrite Htok. reflexivity.
  - unfold bearer. rewrite Hh. exact Hb.
  - rewrite server_protected_run by assumption.
    rewrite server_guarded_run, (server_auth_bearer w req h) by assumption.
    cbn [app]. destruct (verdict _ _ _) as [r|user]; [reflexivity|].
    destruct (server_handler_appends w (route req) req user
                [me_call (Server.PI_API_URL (process_env w)) (access_token h)])
      as [extra ->].
    reflexivity.
  - intros Hp. rewrite enhanced_protected_run by assumption.
    rewrite enhanced_guarded_run, (enhanced_auth_bearer w base req h) by assumption.
    cbn [app]. destruct (verdict _ _ _) as [r|user]; [reflexivity|].
    destruct (enhanced_handler_appends w base (route req) req user
                [me_call base (access_token h)]) as [extra ->].
    reflexivity.
Qed.

Lemma bearer_prefix_witness :
  access_token "Bearer a b" = "a" /\
  head (snd (Server.serve Samples.world
               (Samples.request GetBalance (Some "Bearer a b") [])))
  = Some (me_call Samples.base "a") /\
  head (snd (Enhanced.serve Samples.base Samples.world
               (Samples.request GetBalance (Some "Bearer a b") [])))
  = Some (me_call Samples.base "a").
Proof.
  destruct (bearer_prefix_sends_token_between_spaces
              Samples.base Samples.world
              (Samples.request GetBalance (Some "Bearer a b") []) "Bearer a b")
    as (_ & _ & _ & Hs & He).
  - vm_compute. reflexivity.
  - reflexivity.
  - reflexivity.
  - split; [reflexivity|]. split; [exact Hs|]. apply He. reflexivity.
Defined.

Example bare_scheme_sends_empty_token :
  access_token "Bearer " = EmptyString /\
  head (snd (Server.serve Samples.world (Samples.request GetBalance (Some "Bearer ") [])))
  = Some (me_call Samples.base EmptyString).
Proof. split; vm_compute; reflexivity. Qed.

(** ** Numbers in a template literal *)

Example number_text_samples :
  number_text 7 = "7" /\
  number_text (-7) = "-7" /\
  number_text 9007199254740991 = "9007199254740991" /\
  number_text 9007199254740993 = "9007199254740992" /\
  number_text 12345678901234567890 = "12345678901234567000" /\
  number_text 18446744073709551616 = "18446744073709552000" /\
  number_text (10 ^ 21) = "1e+21" /\
  number_text (2 ^ 70) = "1.1805916207174113e+21" /\
  number_text (2 ^ 1024) = "Infinity".
Proof. repeat split; vm_compute; reflexivity. Qed.

(** Below 2^53 a number prints as the integer it is. *)
Lemma number_text_safe n :
  (0 <= n < 2 ^ 53)%Z -> number_text n = string_of_Z n.
Proof.
  intros H. unfold number_text, positive_text.
  replace (n <? 0)%Z with false by lia.
  replace (n <? 2 ^ 53)%Z with true by lia. reflexivity.
Qed.

(** ** Errors a handler can catch *)

(** Induction on values that reaches into arrays. *)
Lemma JsVal_array_ind (P : JsVal -> Prop) :
  P JUndefined -> P JNull -> (forall b, P (JBool b)) -> (forall n, P (JNum n)) ->
  (forall s, P (JStr s)) ->
  (forall items, Forall P items -> P (JArr items)) ->
  (forall fields, P (JObj fields)) ->
  forall v, P v.
Proof.
  intros Hu Hn Hb Hz Hs Ha Ho. fix IH 1.
  intros [| |b|n|s|items|fields];
    [exact Hu|exact Hn|apply Hb|apply Hz|apply Hs| |apply Ho].
  apply Ha. induction items as [|x rest IHrest]; constructor; [apply IH|exact IHrest].
Qed.

Lemma join_throws (P : JsError -> Prop) f l e :
  Forall (fun x => forall e', f x = Throw e' -> P e') l ->
  join f l = Throw e -> P e.
Proof.
  induction 1 as [|x rest Hx _ IH]; simpl; [discriminate|].
  destruct (item_string f x) as [sx|ex] eqn:Ex.
  - destruct rest as [|y rest]; [discriminate|].
    destruct (join f (y :: rest)) as [t|et]; [discriminate|].
    intros [= <-]. apply IH. reflexivity.
  - intros [= <-]. apply Hx. destruct x; simpl in Ex; try discriminate; exact Ex.
Qed.

(** Conversion to a string fails with a TypeError only. *)
Lemma toString_throws v : forall e, toString v = Throw e -> exists m, e = TypeError m.
Proof.
  induction v as [| |[|]|n|s|items IH|fields] using JsVal_array_ind;
    intros e; simpl; try discriminate.
  - apply (join_throws (fun e => exists m, e = TypeError m)). exact IH.
  - destruct (own fields "toString"); [|discriminate]. intros [= <-]. eauto.
Qed.

Lemma caught_failure e : caught e -> ((200 <=? status_or_500 e) && (status_or_500 e <? 300))%Z = false.
Proof.
  intros [[reply H]|[m ->]].
  - apply status_or_500_failure in H. lia.
  - reflexivity.
Qed.

Lemma caught_settle reply e : settle reply = Throw e -> caught e.
Proof. left. eauto. Qed.

Lemma caught_get v k e : get v k = Throw e -> caught e.
Proof.
  intros He. right. destruct (get_cases v k) as [[m H]|H]; rewrite H in He.
  - injection He as <-. eauto.
  - discriminate.
Qed.

Lemma caught_toString v e : toString v = Throw e -> caught e.
Proof. intros He. right. eapply toString_throws; eauto. Qed.

#[local] Hint Resolve caught_settle caught_get caught_toString : core.

(** ** Every answer is well shaped *)

Lemma own_json_absent k fields :
  existsb (String.eqb k) (List.map fst fields) = false -> own (json fields) k = None.
Proof.
  induction fields as [|[k' v] rest IH]; simpl; [reflexivity|].
  intros H. apply orb_false_iff in H as [H1 H2].
  destruct (defined v); simpl; auto.
  rewrite String.eqb_sym, H1. auto.
Qed.

Lemma success_well_shaped fields :
  existsb (String.eqb "error") (List.map fst fields) = false ->
  well_shaped {| code := 200; payload := json fields |}.
Proof.
  intros H. unfold well_shaped, has_field. simpl. rewrite own_json_absent by exact H.
  reflexivity.
Qed.

Lemma send_well_shaped c v rest :
  ((200 <=? c) && (c <? 300))%Z = false -> defined v = true ->
  well_shaped (send c (("error", v) :: rest)).
Proof.
  intros Hc Hv. unfold well_shaped, send, bodiless. simpl.
  destruct (c =? 304)%Z eqn:E.
  - rewrite orb_true_r. reflexivity.
  - replace (c =? 204)%Z with false by lia.
    unfold has_field, is_success. simpl. rewrite Hv, Hc. reflexivity.
Qed.

Lemma upstream_message_defined e fallback :
  defined (Enhanced.upstream_message e fallback) = true.
Proof.
  unfold Enhanced.upstream_message, or_else.
  destruct (truthy _) eqn:E; [|reflexivity].
  destruct (match response e with Some (_, d) => get_opt d "message" | None => JUndefined end);
    simpl in *; congruence.
Qed.

Lemma relay_failure_well_shaped e fallback :
  caught e -> well_shaped (Enhanced.relay_failure e fallback).
Proof.
  intros H. apply send_well_shaped;
    [apply caught_failure; exact H|apply upstream_message_defined].
Qed.

Lemma server_authentication_failed_well_shaped w e :
  caught e -> well_shaped (Server.authentication_failed w e).
Proof. intros H. apply send_well_shaped; [apply caught_failure; exact H|reflexivity]. Qed.

#[local] Hint Resolve relay_failure_well_shaped server_authentication_failed_well_shaped : core.

Lemma verdict_well_shaped failed invalid reply r :
  (forall e, caught e -> well_shaped (failed e)) -> well_shaped invalid ->
  verdict failed invalid reply = Answered r -> well_shaped r.
Proof.
  intros Hf Hi. unfold verdict.
  destruct (settle reply) as [a|e] eqn:Es.
  - destruct (get (data a) "uid") as [u|e] eqn:Eg.
    + destruct (truthy u); [discriminate|]. intros [= <-]. exact Hi.
    + intros [= <-]. eauto.
  - intros [= <-]. eauto.
Qed.

(** Runs one handler body down to its answers. *)
Ltac run_handler :=
  unfold try_catch, bind, lift, ret, axios_get, axios_post, axios;
  repeat match goal with
    | |- context [toString ?v] => destruct (toString v) eqn:?; simpl
    | |- context [settle ?r] => destruct (settle r) eqn:?; simpl
    | |- context [get ?v ?k] => destruct (get v k) eqn:?; simpl
    | |- context [if ?b then _ else _] => destruct b eqn:?; simpl
    end.

Ltac close_answer :=
  do 2 eexists; split; [reflexivity|];
  first [ reflexivity
        | apply success_well_shaped; reflexivity
        | apply relay_failure_well_shaped; eauto ].

Lemma server_handlers_answer w req user :
  answers (Server.balance w req user) /\ answers (Server.approve w req user) /\
  answers (Server.complete w req user) /\
  forall p, answers (Server.payment w p req user).
Proof.
  repeat split; intros; intros calls;
    unfold Server.balance, Server.approve, Server.complete, Server.payment;
    run_handler; close_answer.
Qed.

Lemma enhanced_handlers_answer base w req user :
  answers (Enhanced.balance base w req user) /\
  answers (Enhanced.approve base w req user) /\
  answers (Enhanced.complete base w req user).
Proof.
  repeat split; intros calls;
    unfold Enhanced.balance, Enhanced.approve, Enhanced.complete;
    run_handler; close_answer.
Qed.

Lemma bearer_cases req :
  bearer req = false \/
  exists h, headers req !! "authorization" = Some h /\ startsWith h "Bearer " = true.
Proof.
  unfold bearer. destruct (headers req !! "authorization") as [h|]; [|auto].
  destruct (startsWith h "Bearer ") eqn:E; eauto.
Qed.

Lemma server_guarded_answers w req handler :
  (forall user, answers (handler req user)) ->
  exists r calls, Server.guarded w req handler [] = (Ok r, calls) /\ well_shaped r.
Proof.
  intros Hh. rewrite server_guarded_run.
  destruct (bearer_cases req) as [Hb|(h & Hh1 & Hh2)].
  - rewrite server_auth_unauthenticated by exact Hb. do 2 eexists. split; reflexivity.
  - rewrite (server_auth_bearer w req h) by assumption.
    destruct (verdict _ _ _) as [r|user] eqn:Ev.
    + do 2 eexists. split; [reflexivity|].
      eapply verdict_well_shaped; [| |exact Ev]; [auto|reflexivity].
    + apply Hh.
Qed.

Lemma enhanced_guarded_answers base w req handler :
  (forall user, answers (handler req user)) ->
  exists r calls, Enhanced.guarded base w req handler [] = (Ok r, calls) /\ well_shaped r.
Proof.
  intros Hh. rewrite enhanced_guarded_run.
  destruct (bearer_cases req) as [Hb|(h & Hh1 & Hh2)].
  - rewrite enhanced_auth_unauthenticated by exact Hb. do 2 eexists. split; reflexivity.
  - rewrite (enhanced_auth_bearer w base req h) by assumption.
    destruct (verdict _ _ _) as [r|user] eqn:Ev.
    + do 2 eexists. split; [reflexivity|].
      eapply verdict_well_shaped; [| |exact Ev]; [|reflexivity].
      intros e He. apply relay_failure_well_shaped. exact He.
    + apply Hh.
Qed.

Lemma server_serve_well_shaped w req :
  exists r calls, Server.serve w req = (Ok r, calls) /\ well_shaped r.
Proof.
  unfold Server.serve, Server.app. destruct (route req).
  - apply server_guarded_answers. intros u. apply (server_handlers_answer w req u).
  - apply server_guarded_answers. intros u. apply (server_handlers_answer w req u).
  - apply server_guarded_answers. intros u. apply (server_handlers_answer w req u).
  - apply server_guarded_answers. intros u. apply (server_handlers_answer w req u).
  - do 2 eexists. split; [reflexivity|]. reflexivity.
  - do 2 eexists. split; reflexivity.
Qed.

Lemma enhanced_serve_well_shaped base w req :
  exists r calls, Enhanced.serve base w req = (Ok r, calls) /\ well_shaped r.
Proof.
  unfold Enhanced.serve, Enhanced.app. destruct (route req).
  - apply enhanced_guarded_answers. intros u. apply (enhanced_handlers_answer base w req u).
  - apply enhanced_guarded_answers. intros u. apply (enhanced_handlers_answer base w req u).
  - apply enhanced_guarded_answers. intros u. apply (enhanced_handlers_answer base w req u).
  - do 2 eexists. split; reflexivity.
  - do 2 eexists. split; reflexivity.
  - do 2 eexists. split; reflexivity.
Qed.



(** ** Startup *)

Lemma server_start_crashed (env : gmap string string) :
  crashed (Server.start env) = missing env "PI_API_KEY" || missing env "FRONTEND_URL".
Proof.
  unfold Server.start, Server.requiredEnvVars, missing. simpl.
  destruct (env_set (env !! "PI_API_KEY")); [|reflexivity].
  destruct (env_set (env !! "FRONTEND_URL")); reflexivity.
Qed.

Lemma enhanced_start_crashed (env : gmap string string) :
  crashed (Enhanced.start env) = missing env "PI_API_KEY" || missing env "FRONTEND_URL".
Proof.
  unfold Enhanced.start, missing.
  destruct (env_set (env !! "PI_API_KEY")); [|reflexivity].
  destruct (env_set (env !! "FRONTEND_URL")); reflexivity.
Qed.

Lemma missing_delete_other (env : gmap string string) name other :
  other <> name -> missing (delete other env) name = missing env name.
Proof. intros H. unfold missing. now rewrite lookup_delete_ne. Qed.

(** C5, the claim as it stands fails: with the API key and the origin set
    and neither a port nor an environment flag, both servers come up;
    [src/server.js] listens on an undefined port (one the system picks) and
    talks to the test upstream, the enhanced variant listens on 443. *)
Lemma startup_without_port_or_flag :
  Samples.env !! "PORT" = None /\ Samples.env !! "NODE_ENV" = None /\
  Server.start Samples.env = Listening JUndefined /\
  Server.PI_API_URL Samples.env = "https://api.testnet.minepi.com/v2" /\
  Enhanced.start Samples.env = Listening (JNum 443).
Proof. repeat split; vm_compute; reflexivity. Qed.

(** C5, amended.  Startup fails exactly when the service API key or the
    allowed origin is missing (unset or empty), naming the first one that
    is; the listening port and the environment flag are not required:
    removing either changes nothing about whether the server starts. *)
Theorem startup_requires_key_and_origin (env : gmap string string) :
  crashed (Server.start env) = missing env "PI_API_KEY" || missing env "FRONTEND_URL" /\
  crashed (Enhanced.start env) = missing env "PI_API_KEY" || missing env "FRONTEND_URL" /\
  Server.start env
  = (if missing env "PI_API_KEY" then Crashed "PI_API_KEY missing in .env"
     else if missing env "FRONTEND_URL" then Crashed "FRONTEND_URL missing in .env"
     else Listening (Server.PORT env)) /\
  crashed (Server.start (delete "PORT" env)) = crashed (Server.start env) /\
  crashed (Server.start (delete "NODE_ENV" env)) = crashed (Server.start env) /\
  crashed (Enhanced.start (delete "PORT" env)) = crashed (Enhanced.start env) /\
  crashed (Enhanced.start (delete "NODE_ENV" env)) = crashed (Enhanced.start env).
Proof.
  split; [apply server_start_crashed|]. split; [apply enhanced_start_crashed|].
  split.
  - unfold Server.start, Server.requiredEnvVars, missing. simpl.
    destruct (env_set (env !! "PI_API_KEY")); [|reflexivity].
    destruct (env_set (env !! "FRONTEND_URL")); reflexivity.
  - rewrite !server_start_crashed, !enhanced_start_crashed.
    rewrite !missing_delete_other by discriminate. repeat split.
Qed.

(** ** Verified callers *)

Lemma verdict_next failed invalid reply user :
  verdict failed invalid reply = Next user ->
  exists s d, reply = Reply s d /\ (200 <= s < 300)%Z /\
              get d "uid" = Ok (uid user) /\ truthy (uid user) = true /\
              user = {| uid := get_opt d "uid";
                        username := get_opt d "username";
                        walletAddress := get_opt d "wallet_address" |}.
Proof.
  unfold verdict. destruct (settle reply) as [a|e] eqn:Es; [|discriminate].
  apply settle_ok in Es as [-> Hs].
  destruct (get (data a) "uid") as [u|e] eqn:Eg; [|discriminate].
  destruct (truthy u) eqn:Et; [|discriminate].
  intros [= <-]. exists (status a), (data a). simpl.
  rewrite <- (get_ok_opt _ _ _ Eg). auto.
Qed.

(** Passing the middleware means: a Bearer header, one identity call, and a
    user built from its answer. *)
Lemma server_auth_next w req user calls :
  Server.authenticatePiRequest w req [] = (Ok (Next user), calls) ->
  exists h, headers req !! "authorization" = Some h /\
            startsWith h "Bearer " = true /\
            calls = [me_call (Server.PI_API_URL (process_env w)) (access_token h)] /\
            verdict (Server.authentication_failed w) Server.invalid_token
              (upstream w (me_call (Server.PI_API_URL (process_env w)) (access_token h)))
            = Next user.
Proof.
  destruct (bearer_cases req) as [Hb|(h & Hh & Hb)].
  - rewrite server_auth_unauthenticated by exact Hb. discriminate.
  - rewrite (server_auth_bearer w req h) by assumption.
    intros [= Hv <-]. exists h. auto.
Qed.

Lemma enhanced_auth_next base w req user calls :
  Enhanced.authenticatePiRequest base w req [] = (Ok (Next user), calls) ->
  exists h, headers req !! "authorization" = Some h /\
            startsWith h "Bearer " = true /\
            calls = [me_call base (access_token h)] /\
            verdict Enhanced.authentication_failed Enhanced.invalid_token
              (upstream w (me_call base (access_token h)))
            = Next user.
Proof.
  destruct (bearer_cases req) as [Hb|(h & Hh & Hb)].
  - rewrite enhanced_auth_unauthenticated by exact Hb. discriminate.
  - rewrite (enhanced_auth_bearer w base req h) by assumption.
    intros [= Hv <-]. exists h. auto.
Qed.

Lemma server_balance_calls w req user calls :
  snd (Server.balance w req user calls)
  = (calls ++ match toString (uid user) with
              | Ok u => [balance_call (Server.PI_API_URL (process_env w))
                           (Server.service_headers w) u]
              | Throw _ => []
              end)%list.
Proof.
  unfold Server.balance, balance_call. run_handler;
    rewrite ?app_nil_r; reflexivity.
Qed.



(** ** Input validation *)

Lemma absent_falsy b k : absent b k = true -> truthy (field b k) = false.
Proof. unfold absent, field. destruct (own b k); [discriminate|reflexivity]. Qed.

(** Any falsy [paymentId] (absent, [null], [false], [0], the empty string)
    stops an approve request. *)
Lemma server_approve_falsy_id w req user calls :
  truthy (field (body req) "paymentId") = false ->
  Server.approve w req user calls
  = (Ok {| code := 400; payload := [("error", JStr "Missing payment ID")] |}, calls).
Proof. intros H. unfold Server.approve, try_catch. rewrite H. reflexivity. Qed.

Lemma server_complete_falsy_field w req user calls :
  truthy (field (body req) "paymentId") && truthy (field (body req) "txid") = false ->
  Server.complete w req user calls
  = (Ok {| code := 400;
           payload := [("error", JStr "Missing payment ID or transaction ID")] |}, calls).
Proof.
  intros H. unfold Server.complete, try_catch.
  rewrite <- negb_andb, H. reflexivity.
Qed.

(** C4.  An authenticated approve request whose body lacks [paymentId], and
    an authenticated complete request whose body lacks [paymentId] or
    [txid], is answered exactly 400 with the invalid-input message, and the
    only outbound call of the whole request is the identity call the
    middleware made: the payments API is never reached. *)
Theorem missing_fields_answer_400_before_upstream w req user calls :
  Server.authenticatePiRequest w req [] = (Ok (Next user), calls) ->
  lacks_required_field req = true ->
  Server.serve w req
  = (Ok {| code := 400;
           payload := [("error", JStr (missing_field_message (route req)))] |}, calls) /\
  class_of_message class_table (missing_field_message (route req)) = Some InvalidInput /\
  exists h, headers req !! "authorization" = Some h /\
            calls = [me_call (Server.PI_API_URL (process_env w)) (access_token h)].
Proof.
  intros Hauth Hlack.
  destruct (server_auth_next w req user calls Hauth) as (h & Hh & _ & Hc & _).
  unfold lacks_required_field in Hlack. unfold Server.serve, Server.app.
  destruct (route req); try discriminate.
  - rewrite server_guarded_run, Hauth.
    rewrite server_approve_falsy_id by (apply absent_falsy; exact Hlack).
    split; [reflexivity|]. split; [reflexivity|]. eauto.
  - rewrite server_guarded_run, Hauth.
    rewrite server_complete_falsy_field.
    + split; [reflexivity|]. split; [reflexivity|]. eauto.
    + apply orb_true_iff in Hlack as [H|H]; apply absent_falsy in H; rewrite H;
        [reflexivity|apply andb_false_r].
Qed.

Lemma missing_fields_witness :
  Server.serve Samples.world
    (Samples.request PostComplete (Some "Bearer abc") [("paymentId", JStr "p1")])
  = (Ok {| code := 400;
           payload := [("error", JStr "Missing payment ID or transaction ID")] |},
     [me_call Samples.base "abc"]).
Proof.
  apply (missing_fields_answer_400_before_upstream Samples.world
           (Samples.request PostComplete (Some "Bearer abc") [("paymentId", JStr "p1")])
           {| uid := JStr "u1"; username := JStr "alice"; walletAddress := JUndefined |}
           [me_call Samples.base "abc"]).
  - vm_compute. reflexivity.
  - reflexivity.
Defined.

(** ** The balance answer *)

Lemma verdict_answered_failure failed invalid reply r :
  (forall e, caught e -> is_success (failed e) = false) -> is_success invalid = false ->
  verdict failed invalid reply = Answered r -> is_success r = false.
Proof.
  intros Hf Hi. unfold verdict.
  destruct (settle reply) as [a|e] eqn:Es.
  - destruct (get (data a) "uid") as [u|e] eqn:Eg.
    + destruct (truthy u); [discriminate|]. intros [= <-]. exact Hi.
    + intros [= <-]. eauto.
  - intros [= <-]. eauto.
Qed.

Lemma server_authentication_failed_failure w e :
  caught e -> is_success (Server.authentication_failed w e) = false.
Proof. apply caught_failure. Qed.

Lemma relay_failure_failure e fallback :
  caught e -> is_success (Enhanced.relay_failure e fallback) = false.
Proof. apply caught_failure. Qed.

(** The middleware always ends: with a failure answer, or with a user. *)
Lemma server_auth_outcome w req :
  exists a calls,
    Server.authenticatePiRequest w req [] = (Ok a, calls) /\
    match a with
    | Answered r => is_success r = false
    | Next _ => True
    end.
Proof.
  destruct (bearer_cases req) as [Hb|(h & Hh & Hb)].
  - rewrite server_auth_unauthenticated by exact Hb.
    do 2 eexists. split; reflexivity.
  - rewrite (server_auth_bearer w req h) by assumption.
    do 2 eexists. split; [reflexivity|].
    destruct (verdict _ _ _) as [r|user] eqn:Ev; [|exact I].
    eapply verdict_answered_failure; [| |exact Ev];
      [apply server_authentication_failed_failure|reflexivity].
Qed.

Lemma enhanced_auth_outcome base w req :
  exists a calls,
    Enhanced.authenticatePiRequest base w req [] = (Ok a, calls) /\
    match a with
    | Answered r => is_success r = false
    | Next _ => True
    end.
Proof.
  destruct (bearer_cases req) as [Hb|(h & Hh & Hb)].
  - rewrite enhanced_auth_unauthenticated by exact Hb.
    do 2 eexists. split; reflexivity.
  - rewrite (enhanced_auth_bearer w base req h) by assumption.
    do 2 eexists. split; [reflexivity|].
    destruct (verdict _ _ _) as [r|user] eqn:Ev; [|exact I].
    eapply verdict_answered_failure; [| |exact Ev]; [|reflexivity].
    intros e He. apply relay_failure_failure. exact He.
Qed.

Lemma server_balance_success w req user calls r calls' :
  Server.balance w req user calls = (Ok r, calls') ->
  is_success r = true ->
  exists u s d,
    toString (uid user) = Ok u /\
    calls' = (calls ++ [balance_call (Server.PI_API_URL (process_env w))
                          (Server.service_headers w) u])%list /\
    upstream w (balance_call (Server.PI_API_URL (process_env w))
                  (Server.service_headers w) u) = Reply s d /\
    code r = 200%Z /\
    payload r = balance_body "available" "locked" d (now w).
Proof.
  unfold Server.balance, try_catch, bind, lift, ret, axios_get, axios.
  destruct (toString (uid user)) as [u|e] eqn:Eu; simpl;
    [|intros [= <- <-]; discriminate].
  fold (balance_call (Server.PI_API_URL (process_env w)) (Server.service_headers w) u).
  destruct (settle _) as [a|e] eqn:Es; simpl; [|intros [= <- <-]; discriminate].
  apply settle_ok in Es as [Hr _].
  destruct (get (data a) "available_balance") as [v1|e] eqn:E1; simpl;
    [|intros [= <- <-]; discriminate].
  destruct (get (data a) "locked_balance") as [v2|e] eqn:E2; simpl;
    [|intros [= <- <-]; discriminate].
  intros [= <- <-] _. exists u, (status a), (data a).
  rewrite (get_ok_opt _ _ _ E1), (get_ok_opt _ _ _ E2). auto.
Qed.

Lemma enhanced_balance_success base w req user calls r calls' :
  Enhanced.balance base w req user calls = (Ok r, calls') ->
  is_success r = true ->
  exists u s d,
    toString (uid user) = Ok u /\
    calls' = (calls ++ [balance_call base (Enhanced.service_headers w) u])%list /\
    upstream w (balance_call base (Enhanced.service_headers w) u) = Reply s d /\
    code r = 200%Z /\
    payload r = balance_body "available_balance" "locked_balance" d (now w).
Proof.
  unfold Enhanced.balance, try_catch, bind, lift, ret, axios_get, axios.
  destruct (toString (uid user)) as [u|e] eqn:Eu; simpl.
  2:{ intros [= <- <-] H. rewrite relay_failure_failure in H by eauto. discriminate. }
  fold (balance_call base (Enhanced.service_headers w) u).
  destruct (settle _) as [a|e] eqn:Es; simpl.
  2:{ intros [= <- <-] H. rewrite relay_failure_failure in H by eauto. discriminate. }
  apply settle_ok in Es as [Hr _].
  destruct (get (data a) "available_balance") as [v1|e] eqn:E1; simpl.
  2:{ intros [= <- <-] H. rewrite relay_failure_failure in H by eauto. discriminate. }
  destruct (get (data a) "locked_balance") as [v2|e] eqn:E2; simpl.
  2:{ intros [= <- <-] H. rewrite relay_failure_failure in H by eauto. discriminate. }
  intros [= <- <-] _. exists u, (status a), (data a).
  rewrite (get_ok_opt _ _ _ E1), (get_ok_opt _ _ _ E2). auto.
Qed.

Lemma undefined_when_not_defined v : defined v = false -> v = JUndefined.
Proof. destruct v; simpl; congruence. Qed.

(** The balance body maps the upstream fields one to one, and leaves out a
    field the upstream body does not have. *)
Lemma balance_body_fields d clock :
  field (balance_body "available" "locked" d clock) "available"
  = get_opt d "available_balance" /\
  field (balance_body "available" "locked" d clock) "locked"
  = get_opt d "locked_balance" /\
  field (balance_body "available" "locked" d clock) "currency" = JStr "PI" /\
  field (balance_body "available" "locked" d clock) "last_updated" = JStr clock /\
  List.map fst (balance_body "available" "locked" d clock)
  = ((if defined (get_opt d "available_balance") then ["available"] else [])
     ++ (if defined (get_opt d "locked_balance") then ["locked"] else [])
     ++ ["currency"; "last_updated"])%list.
Proof.
  unfold balance_body, json, field. simpl.
  destruct (defined (get_opt d "available_balance")) eqn:E1;
    destruct (defined (get_opt d "locked_balance")) eqn:E2; simpl;
    try rewrite (undefined_when_not_defined _ E1);
    try rewrite (undefined_when_not_defined _ E2);
    repeat split.
Qed.




(** ** Identity answers the middleware rejects *)

(** What the middleware answers, case by case, when the identity call does
    not yield a user. *)
Lemma rejected_identity_answer failed invalid reply r :
  verdict failed invalid reply = Answered r ->
  (exists m, reply = NoReply m /\ r = failed (AxiosError m None)) \/
  (exists s d m, reply = Reply s d /\ ~ (200 <= s < 300)%Z /\
                 r = failed (AxiosError m (Some (s, d)))) \/
  (exists s d m, reply = Reply s d /\ (200 <= s < 300)%Z /\
                 get d "uid" = Throw (TypeError m) /\ r = failed (TypeError m)) \/
  (exists s d u, reply = Reply s d /\ (200 <= s < 300)%Z /\
                 get d "uid" = Ok u /\ truthy u = false /\ r = invalid).
Proof.
  unfold verdict. destruct (settle reply) as [a|e] eqn:Es.
  - apply settle_ok in Es as [-> Hs].
    destruct (get_cases (data a) "uid") as [[m Hm]|Hu].
    + rewrite Hm. intros [= <-]. right. right. left. eauto 10.
    + rewrite Hu. destruct (truthy _) eqn:Et; [discriminate|].
      intros [= <-]. right. right. right. eauto 10.
  - intros [= <-]. apply settle_throw in Es as [(m & -> & ->)|(s & d & m & -> & -> & Hs)].
    + left. eauto.
    + right. left. eauto 10.
Qed.

(** A request the middleware rejects makes the identity call and no other:
    the operation behind it is never called. *)
Lemma rejected_identity_stops_request base w req h :
  headers req !! "authorization" = Some h ->
  startsWith h "Bearer " = true ->
  server_protected (route req) = true ->
  (forall r,
     verdict (Server.authentication_failed w) Server.invalid_token
       (upstream w (me_call (Server.PI_API_URL (process_env w)) (access_token h)))
     = Answered r ->
     Server.serve w req
     = (Ok r, [me_call (Server.PI_API_URL (process_env w)) (access_token h)])) /\
  (forall r,
     enhanced_protected (route req) = true ->
     verdict Enhanced.authentication_failed Enhanced.invalid_token
       (upstream w (me_call base (access_token h)))
     = Answered r ->
     Enhanced.serve base w req = (Ok r, [me_call base (access_token h)])).
Proof.
  intros Hh Hb Hroute. split.
  - intros r Hv. rewrite server_protected_run by assumption.
    rewrite server_guarded_run, (server_auth_bearer w req h) by assumption.
    rewrite Hv. reflexivity.
  - intros r Hp Hv. rewrite enhanced_protected_run by assumption.
    rewrite enhanced_guarded_run, (enhanced_auth_bearer w base req h) by assumption.
    rewrite Hv. reflexivity.
Qed.

(** The status of the [catch] answer: the upstream status when there is one
    (and it is not 0), 500 otherwise. *)
Lemma authentication_failed_status w e :
  code (Server.authentication_failed w e) = status_or_500 e /\
  code (Enhanced.authentication_failed e) = status_or_500 e /\
  (forall m s d, s <> 0%Z -> status_or_500 (AxiosError m (Some (s, d))) = s) /\
  (forall m, status_or_500 (AxiosError m None) = 500%Z) /\
  (forall m, status_or_500 (TypeError m) = 500%Z).
Proof.
  repeat split. intros m s d Hs. unfold status_or_500. simpl.
  destruct (s =? 0)%Z eqn:E; [lia|reflexivity].
Qed.

(** C3, the defect.  The identity endpoint answers 200 with the JSON body
    [null]: the call succeeded and returned no user identifier, which the
    claim answers 401.  Reading [data.uid] throws instead, the [catch]
    block takes over, and both servers answer 500 "Authentication failed".
    The operation is not called. *)
Theorem null_identity_body_answers_500 :
  upstream Samples.null_identity_world (me_call Samples.base "abc") = Reply 200 JNull /\
  Server.serve Samples.null_identity_world
    (Samples.request GetBalance (Some "Bearer abc") [])
  = (Ok {| code := 500; payload := [("error", JStr "Authentication failed")] |},
     [me_call Samples.base "abc"]) /\
  Enhanced.serve Samples.base Samples.null_identity_world
    (Samples.request GetBalance (Some "Bearer abc") [])
  = (Ok {| code := 500; payload := [("error", JStr "Authentication failed")] |},
     [me_call Samples.base "abc"]) /\
  Server.serve (Samples.answering (Samples.base +:+ "/me") (Reply 200 (JObj [])))
    (Samples.request GetBalance (Some "Bearer abc") [])
  = (Ok {| code := 401; payload := [("error", JStr "Invalid authentication token")] |},
     [me_call Samples.base "abc"]).
Proof. repeat split; vm_compute; reflexivity. Qed.

(** ** The approve round trip *)

Lemma truthy_defined v : truthy v = true -> defined v = true.
Proof. destruct v; simpl; congruence. Qed.

Lemma server_approve_success w req user calls r calls' :
  Server.approve w req user calls = (Ok r, calls') ->
  is_success r = true ->
  own (payload r) "payment_id" = Some (field (body req) "paymentId").
Proof.
  unfold Server.approve, try_catch, bind, lift, ret, axios_post, axios.
  destruct (truthy (field (body req) "paymentId")) eqn:Et; simpl;
    [|intros [= <- <-]; discriminate].
  apply truthy_defined in Et.
  destruct (toString _) as [p|e]; simpl; [|intros [= <- <-]; discriminate].
  destruct (settle _) as [a|e]; simpl; [|intros [= <- <-]; discriminate].
  destruct (get (data a) "status") as [v1|e]; simpl; [|intros [= <- <-]; discriminate].
  destruct (get (data a) "amount") as [v2|e]; simpl; [|intros [= <- <-]; discriminate].
  destruct (get (data a) "memo") as [v3|e]; simpl; [|intros [= <- <-]; discriminate].
  intros [= <- <-] _. simpl. unfold json. simpl. rewrite Et.
  destruct (defined v1); reflexivity.
Qed.

Lemma enhanced_approve_success base w req user calls r calls' :
  Enhanced.approve base w req user calls = (Ok r, calls') ->
  is_success r = true ->
  own (payload r) "payment_id" = Some (field (body req) "paymentId").
Proof.
  unfold Enhanced.approve, try_catch, bind, lift, ret, axios_post, axios.
  destruct (negb (truthy (field (body req) "paymentId"))
            || negb (Enhanced.is_string (field (body req) "paymentId"))) eqn:Et; simpl;
    [intros [= <- <-]; discriminate|].
  apply orb_false_iff in Et as [Et _]. apply negb_false_iff, truthy_defined in Et.
  destruct (toString _) as [p|e] eqn:Ep; simpl.
  2:{ intros [= <- <-] H. rewrite relay_failure_failure in H by eauto. discriminate. }
  destruct (settle _) as [a|e] eqn:Es; simpl.
  2:{ intros [= <- <-] H. rewrite relay_failure_failure in H by eauto. discriminate. }
  destruct (get (data a) "status") as [v1|e] eqn:E1; simpl.
  2:{ intros [= <- <-] H. rewrite relay_failure_failure in H by eauto. discriminate. }
  intros [= <- <-] _. simpl. unfold json. simpl. rewrite Et.
  destruct (defined v1); reflexivity.
Qed.


(** C7, the defect.  The caller is verified and asks to approve payment
    [p1]; the upstream approval call succeeds, with status 200 and the JSON
    body [null].  Reading [response.data.status] throws, the [catch] block
    takes over, and both servers answer 500 "Payment approval failed": the
    answer has no [payment_id] at all. *)
Theorem null_approval_body_loses_payment_id :
  settle (upstream Samples.null_approval_world
            (approve_call Samples.base (Server.service_headers Samples.null_approval_world)
               "p1"))
  = Ok {| status := 200; data := JNull |} /\
  Server.serve Samples.null_approval_world
    (Samples.request PostApprove (Some "Bearer abc") [("paymentId", JStr "p1")])
  = (Ok {| code := 500; payload := [("error", JStr "Payment approval failed")] |},
     [me_call Samples.base "abc";
      approve_call Samples.base (Server.service_headers Samples.null_approval_world) "p1"]) /\
  Enhanced.serve Samples.base Samples.null_approval_world
    (Samples.request PostApprove (Some "Bearer abc") [("paymentId", JStr "p1")])
  = (Ok {| code := 500; payload := [("error", JStr "Payment approval failed")] |},
     [me_call Samples.base "abc";
      approve_call Samples.base (Enhanced.service_headers Samples.null_approval_world) "p1"]) /\
  Server.serve Samples.world
    (Samples.request PostApprove (Some "Bearer abc") [("paymentId", JStr "p1")])
  = (Ok {| code := 200;
           payload := [("status", JStr "approved"); ("payment_id", JStr "p1");
                       ("amount", JNum 3); ("memo", JStr "tea")] |},
     [me_call Samples.base "abc";
      approve_call Samples.base (Server.service_headers Samples.world) "p1"]).
Proof. repeat split; vm_compute; reflexivity. Qed.

(** ** The two servers side by side *)

Lemma enhanced_approve_falsy_id base w req user calls :
  truthy (field (body req) "paymentId") = false ->
  Enhanced.approve base w req user calls
  = (Ok {| code := 400; payload := [("error", JStr "Invalid payment ID")] |}, calls).
Proof. intros H. unfold Enhanced.approve, try_catch. rewrite H. reflexivity. Qed.

Lemma enhanced_complete_falsy_field base w req user calls :
  truthy (field (body req) "paymentId") && truthy (field (body req) "txid") = false ->
  Enhanced.complete base w req user calls
  = (Ok {| code := 400;
           payload := [("error", JStr "Missing payment ID or transaction ID")] |}, calls).
Proof.
  intros H. unfold Enhanced.complete, try_catch.
  rewrite <- negb_andb, H. reflexivity.
Qed.

(** * Further properties of the handlers *)

(** ** Who gets past the middleware *)

Lemma settle_reply_ok s d :
  (200 <= s < 300)%Z -> settle (Reply s d) = Ok {| status := s; data := d |}.
Proof.
  intros H. simpl.
  replace ((200 <=? s) && (s <? 300))%Z with true; [reflexivity|].
  symmetry. apply andb_true_iff. split; lia.
Qed.

Lemma truthy_get_opt d k :
  truthy (get_opt d k) = true -> get d k = Ok (get_opt d k).
Proof. destruct d; simpl; congruence. Qed.

Lemma verdict_passes failed invalid s d :
  (200 <= s < 300)%Z -> truthy (get_opt d "uid") = true ->
  verdict failed invalid (Reply s d) = Next (identity d).
Proof.
  intros Hs Hu. unfold verdict. rewrite settle_reply_ok by exact Hs. simpl.
  rewrite (truthy_get_opt _ _ Hu), Hu. reflexivity.
Qed.

Lemma verdict_next_passes failed invalid reply user :
  verdict failed invalid reply = Next user ->
  exists s d, reply = Reply s d /\ (200 <= s < 300)%Z /\
              truthy (get_opt d "uid") = true /\ user = identity d.
Proof.
  intros H. destruct (verdict_next _ _ _ _ H) as (s & d & -> & Hs & Hg & Ht & Hu).
  exists s, d. rewrite Hu in Ht. simpl in Ht. auto.
Qed.

(** The middleware of either server calls [next()] exactly when the header
    starts with "Bearer ", the identity call is answered with a 2xx status
    and the body carries a truthy [uid]; the user is then built from that
    body ([username] and [wallet_address] may be missing), and the
    identity call is the only call made. *)
Theorem middleware_passes_exactly_verified_callers base w req user calls :
  (Server.authenticatePiRequest w req [] = (Ok (Next user), calls)
   <-> passes (Server.PI_API_URL (process_env w)) w req user calls) /\
  (Enhanced.authenticatePiRequest base w req [] = (Ok (Next user), calls)
   <-> passes base w req user calls).
Proof.
  split; split.
  - intros H. destruct (server_auth_next w req user calls H) as (h & Hh & Hb & Hc & Hv).
    destruct (verdict_next_passes _ _ _ _ Hv) as (s & d & Hr & Hs & Ht & Hu).
    exists h, s, d. auto 10.
  - intros (h & s & d & Hh & Hb & Hr & Hs & Ht & -> & ->).
    rewrite (server_auth_bearer w req h) by assumption.
    rewrite Hr, verdict_passes by assumption. reflexivity.
  - intros H. destruct (enhanced_auth_next base w req user calls H)
      as (h & Hh & Hb & Hc & Hv).
    destruct (verdict_next_passes _ _ _ _ Hv) as (s & d & Hr & Hs & Ht & Hu).
    exists h, s, d. auto 10.
  - intros (h & s & d & Hh & Hb & Hr & Hs & Ht & -> & ->).
    rewrite (enhanced_auth_bearer w base req h) by assumption.
    rewrite Hr, verdict_passes by assumption. reflexivity.
Qed.

(** A user with no [username] and no [wallet_address] still passes. *)
Lemma middleware_passes_witness :
  Server.authenticatePiRequest
    (Samples.answering (Samples.base +:+ "/me") (Reply 200 (JObj [("uid", JStr "u9")])))
    (Samples.request GetBalance (Some "Bearer abc") []) []
  = (Ok (Next {| uid := JStr "u9"; username := JUndefined; walletAddress := JUndefined |}),
     [me_call Samples.base "abc"]).
Proof.
  apply (middleware_passes_exactly_verified_callers Samples.base).
  exists "Bearer abc", 200%Z, (JObj [("uid", JStr "u9")]).
  repeat split; try (vm_compute; reflexivity); try lia; vm_compute; congruence.
Defined.

(** ** A rejected identity check *)

Lemma rejected_reply s d :
  ~ (200 <= s < 300)%Z ->
  settle (Reply s d)
  = Throw (AxiosError ("Request failed with status code " +:+ string_of_Z s) (Some (s, d))).
Proof.
  intros H. simpl.
  replace ((200 <=? s) && (s <? 300))%Z with false; [reflexivity|].
  symmetry. apply andb_false_iff. lia.
Qed.

Lemma send_failure_status s fields :
  ~ (200 <= s < 300)%Z ->
  send s fields = {| code := s; payload := if (s =? 304)%Z then [] else json fields |}.
Proof.
  intros Hs. unfold send, bodiless.
  replace (s =? 204)%Z with false by lia. reflexivity.
Qed.

Lemma relay_failure_reply s d text fallback :
  ~ (200 <= s < 300)%Z -> s <> 0%Z ->
  Enhanced.relay_failure (AxiosError text (Some (s, d))) fallback
  = {| code := s;
       payload := if (s =? 304)%Z then []
                  else [("error", or_else (get_opt d "message") (JStr fallback))] |}.
Proof.
  intros Hs H0. unfold Enhanced.relay_failure, status_or_500. simpl.
  replace (s =? 0)%Z with false by lia.
  rewrite send_failure_status by exact Hs. unfold json. simpl.
  pose proof (upstream_message_defined (AxiosError text (Some (s, d))) fallback) as Hd.
  unfold Enhanced.upstream_message in *. simpl in *. rewrite Hd. reflexivity.
Qed.



(** ** The outbound calls of a request *)

Ltac close_one_call :=
  first
    [ do 2 eexists; split; [rewrite app_nil_r; reflexivity|left; reflexivity]
    | do 2 eexists; split;
      [reflexivity
      |right; eexists; split;
       [reflexivity
       |first [reflexivity
              |eexists; split; [first [reflexivity|eassumption]|reflexivity]]]] ].

Lemma server_handlers_one_call w req user :
  let base := Server.PI_API_URL (process_env w) in
  let hs := Server.service_headers w in
  one_call_of (fun c => exists u, toString (uid user) = Ok u /\ c = balance_call base hs u)
    (Server.balance w req user) /\
  one_call_of (fun c => exists p, toString (field (body req) "paymentId") = Ok p /\
                                  c = approve_call base hs p)
    (Server.approve w req user) /\
  one_call_of (fun c => exists p, toString (field (body req) "paymentId") = Ok p /\
                                  c = complete_call base hs p (field (body req) "txid"))
    (Server.complete w req user) /\
  forall p, one_call_of (fun c => c = payment_call base hs p) (Server.payment w p req user).
Proof.
  repeat split; intros; intros calls;
    unfold Server.balance, Server.approve, Server.complete, Server.payment;
    run_handler; close_one_call.
Qed.

Lemma enhanced_handlers_one_call base w req user :
  let hs := Enhanced.service_headers w in
  one_call_of (fun c => exists u, toString (uid user) = Ok u /\ c = balance_call base hs u)
    (Enhanced.balance base w req user) /\
  one_call_of (fun c => exists p, toString (field (body req) "paymentId") = Ok p /\
                                  c = approve_call base hs p)
    (Enhanced.approve base w req user) /\
  one_call_of (fun c => exists p, toString (field (body req) "paymentId") = Ok p /\
                                  c = complete_call base hs p (field (body req) "txid"))
    (Enhanced.complete base w req user).
Proof.
  repeat split; intros calls;
    unfold Enhanced.balance, Enhanced.approve, Enhanced.complete;
    run_handler; close_one_call.
Qed.

Lemma one_call_of_ret P r : one_call_of P (ret r).
Proof. intros calls. exists r, []. rewrite app_nil_r. auto. Qed.

Lemma server_handler_one_call w req user :
  one_call_of
    (operation_call (Server.PI_API_URL (process_env w)) (Server.service_headers w) req user)
    (server_handler w (route req) req user).
Proof.
  destruct (server_handlers_one_call w req user) as (H1 & H2 & H3 & H4).
  unfold operation_call. destruct (route req); simpl; auto using one_call_of_ret.
Qed.

Lemma enhanced_handler_one_call base w req user :
  enhanced_protected (route req) = true ->
  one_call_of (operation_call base (Enhanced.service_headers w) req user)
    (enhanced_handler base w (route req) req user).
Proof.
  destruct (enhanced_handlers_one_call base w req user) as (H1 & H2 & H3).
  unfold operation_call. destruct (route req); simpl; auto using one_call_of_ret;
    discriminate.
Qed.

Lemma operation_call_headers base hs req user c :
  operation_call base hs req user c -> call_headers c = hs.
Proof.
  unfold operation_call. destruct (route req);
    try (intros (x & _ & ->); reflexivity); try (intros ->; reflexivity); contradiction.
Qed.

Lemma discipline_after_verdict base hs w req h a (handler : Request -> User -> Task Response) :
  headers req !! "authorization" = Some h ->
  startsWith h "Bearer " = true ->
  (exists failed invalid,
     a = verdict failed invalid (upstream w (me_call base (access_token h)))) ->
  (forall user, one_call_of (operation_call base hs req user) (handler req user)) ->
  exists r calls,
    match a with
    | Answered r0 => (Ok r0, [me_call base (access_token h)])
    | Next user => handler req user [me_call base (access_token h)]
    end = (Ok r, calls) /\
    call_discipline base hs w req calls.
Proof.
  intros Hh Hb (failed & invalid & Ha) Hone.
  destruct a as [r0|user].
  - exists r0, [me_call base (access_token h)]. split; [reflexivity|].
    right. exists h. auto.
  - destruct (Hone user [me_call base (access_token h)]) as (r & extra & Hrun & Hextra).
    exists r, ([me_call base (access_token h)] ++ extra)%list. split; [exact Hrun|].
    right. exists h. split; [exact Hh|]. split; [exact Hb|].
    destruct Hextra as [->|(c & -> & Hc)]; [left; reflexivity|].
    right. exists c, user. split; [reflexivity|].
    split; [|split; [exact Hc|eapply operation_call_headers; exact Hc]].
    symmetry in Ha. destruct (verdict_next_passes _ _ _ _ Ha) as (s & d & Hr & Hs & Ht & Hu).
    exists h, s, d. auto 10.
Qed.

(** One request makes at most two outbound calls, in both servers: none
    (no Bearer header, or a route outside the guard); or the identity call
    with the caller's token alone; or the identity call, answered with a
    verified user, followed by exactly the one call the route builds (GET
    accounts/<uid>/balance, POST payments/<paymentId>/approve or /complete,
    GET payments/<paymentId>, each under the base URL with the id put in
    as it prints), sent with the service headers (the [Key] credential)
    and never with the caller's token.  No operation is called for a caller
    the identity check did not verify. *)
Theorem outbound_calls_follow_the_guard base w req :
  (exists r calls,
     Server.serve w req = (Ok r, calls) /\
     call_discipline (Server.PI_API_URL (process_env w)) (Server.service_headers w)
       w req calls) /\
  (exists r calls,
     Enhanced.serve base w req = (Ok r, calls) /\
     call_discipline base (Enhanced.service_headers w) w req calls).
Proof.
  split.
  - destruct (server_protected (route req)) eqn:Hp.
    + rewrite server_protected_run by exact Hp. rewrite server_guarded_run.
      destruct (bearer_cases req) as [Hb|(h & Hh & Hb)].
      * rewrite server_auth_unauthenticated by exact Hb.
        do 2 eexists. split; [reflexivity|]. left. reflexivity.
      * rewrite (server_auth_bearer w req h) by assumption. cbn [app].
        eapply discipline_after_verdict; eauto.
        intros user. apply server_handler_one_call.
    + unfold Server.serve, Server.app. destruct (route req); try discriminate;
        do 2 eexists; (split; [reflexivity|]); left; reflexivity.
  - destruct (enhanced_protected (route req)) eqn:Hp.
    + rewrite enhanced_protected_run by exact Hp. rewrite enhanced_guarded_run.
      destruct (bearer_cases req) as [Hb|(h & Hh & Hb)].
      * rewrite enhanced_auth_unauthenticated by exact Hb.
        do 2 eexists. split; [reflexivity|]. left. reflexivity.
      * rewrite (enhanced_auth_bearer w base req h) by assumption. cbn [app].
        eapply discipline_after_verdict; eauto.
        intros user. apply enhanced_handler_one_call. exact Hp.
    + unfold Enhanced.serve, Enhanced.app. destruct (route req); try discriminate;
        do 2 eexists; (split; [reflexivity|]); left; reflexivity.
Qed.

(** ** What a failure answer gives away *)

Ltac close_fixed_failure :=
  intros ? ? [= <- <-] Hs;
  first [ vm_compute in Hs; discriminate Hs
        | do 2 eexists; split; reflexivity ].

Lemma server_handlers_fixed_failures w req user :
  (forall calls r calls',
     Server.balance w req user calls = (Ok r, calls') ->
     is_success r = false -> fixed_failure r) /\
  (forall calls r calls',
     Server.approve w req user calls = (Ok r, calls') ->
     is_success r = false -> fixed_failure r) /\
  (forall calls r calls',
     Server.complete w req user calls = (Ok r, calls') ->
     is_success r = false -> fixed_failure r) /\
  (forall p calls r calls',
     Server.payment w p req user calls = (Ok r, calls') ->
     is_success r = false -> fixed_failure r).
Proof.
  repeat split; intros until calls;
    unfold Server.balance, Server.approve, Server.complete, Server.payment;
    run_handler; close_fixed_failure.
Qed.

Lemma verdict_answered_cases failed invalid reply r :
  verdict failed invalid reply = Answered r ->
  (exists e, caught e /\ r = failed e) \/ r = invalid.
Proof.
  unfold verdict. destruct (settle reply) as [a|e] eqn:Es.
  - destruct (get (data a) "uid") as [u|e] eqn:Eg.
    + destruct (truthy u); [discriminate|]. intros [= <-]. right. reflexivity.
    + intros [= <-]. left. eauto.
  - intros [= <-]. left. eauto.
Qed.

Lemma caught_not_success e : caught e -> ~ (200 <= status_or_500 e < 300)%Z.
Proof. intros H. apply caught_failure in H. apply andb_false_iff in H. lia. Qed.

Lemma server_catch_fixed_failure w e :
  env_is (process_env w !! "NODE_ENV") "development" = false ->
  caught e ->
  fixed_failure (Server.authentication_failed w e) \/
  (code (Server.authentication_failed w e) = 304%Z /\
   payload (Server.authentication_failed w e) = []).
Proof.
  intros Hdev He. unfold Server.authentication_failed. rewrite Hdev.
  rewrite send_failure_status by (apply caught_not_success; exact He). simpl.
  destruct (status_or_500 e =? 304)%Z eqn:E.
  - right. split; [lia|reflexivity].
  - left. do 2 eexists. split; reflexivity.
Qed.



(** ** The status of a failed operation *)

Lemma server_handlers_codes w req user :
  (forall calls r calls',
     Server.balance w req user calls = (Ok r, calls') ->
     code r = 200%Z \/ code r = 400%Z \/ code r = 500%Z) /\
  (forall calls r calls',
     Server.approve w req user calls = (Ok r, calls') ->
     code r = 200%Z \/ code r = 400%Z \/ code r = 500%Z) /\
  (forall calls r calls',
     Server.complete w req user calls = (Ok r, calls') ->
     code r = 200%Z \/ code r = 400%Z \/ code r = 500%Z) /\
  (forall p calls r calls',
     Server.payment w p req user calls = (Ok r, calls') ->
     code r = 200%Z \/ code r = 400%Z \/ code r = 500%Z).
Proof.
  repeat split; intros until calls;
    unfold Server.balance, Server.approve, Server.complete, Server.payment;
    run_handler; intros ? ? [= <- <-]; simpl; auto.
Qed.

(** Once the caller is verified, [src/server.js] answers a protected route
    with 200, 400 or 500 and nothing else: whatever status the operation
    call came back with, it is not passed on. *)
Theorem server_hides_operation_status w req user calls0 r calls :
  server_protected (route req) = true ->
  Server.authenticatePiRequest w req [] = (Ok (Next user), calls0) ->
  Server.serve w req = (Ok r, calls) ->
  code r = 200%Z \/ code r = 400%Z \/ code r = 500%Z.
Proof.
  intros Hp Ha Hrun.
  rewrite server_protected_run, server_guarded_run, Ha in Hrun by exact Hp.
  destruct (server_handlers_codes w req user) as (H1 & H2 & H3 & H4).
  destruct (route req); simpl in Hrun; try discriminate; eauto.
Qed.

Lemma server_hides_status_witness :
  upstream Samples.unknown_payment_world
    (approve_call Samples.base (Server.service_headers Samples.unknown_payment_world) "p1")
  = Reply 404 (JObj [("message", JStr "Payment not found")]) /\
  exists r calls,
    Server.serve Samples.unknown_payment_world
      (Samples.request PostApprove (Some "Bearer abc") [("paymentId", JStr "p1")])
    = (Ok r, calls) /\
    (code r = 200%Z \/ code r = 400%Z \/ code r = 500%Z).
Proof.
  split; [vm_compute; reflexivity|].
  exists {| code := 500; payload := [("error", JStr "Payment approval failed")] |},
    [me_call Samples.base "abc";
     approve_call Samples.base (Server.service_headers Samples.unknown_payment_world) "p1"].
  split; [vm_compute; reflexivity|].
  apply (server_hides_operation_status Samples.unknown_payment_world
           (Samples.request PostApprove (Some "Bearer abc") [("paymentId", JStr "p1")])
           {| uid := JStr "u1"; username := JStr "alice"; walletAddress := JUndefined |}
           [me_call Samples.base "abc"] _
           [me_call Samples.base "abc";
            approve_call Samples.base
              (Server.service_headers Samples.unknown_payment_world) "p1"]).
  - reflexivity.
  - vm_compute. reflexivity.
  - vm_compute. reflexivity.
Defined.

Ltac close_relay m0 :=
  intros r m c s d; simpl; intros [= <- Hm Hc] Hreply Hs;
  try discriminate;
  subst;
  repeat match goal with
    | H : settle (upstream _ _) = _ |- _ =>
        rewrite Hreply, (rejected_reply _ _ Hs) in H;
        first [discriminate H | injection H as <-]
    end;
  reflexivity.

Lemma enhanced_handlers_relay base w req user m0 :
  (forall r m c s d,
     Enhanced.balance base w req user [m0] = (Ok r, [m; c]) ->
     upstream w c = Reply s d -> ~ (200 <= s < 300)%Z ->
     r = Enhanced.relay_failure
           (AxiosError ("Request failed with status code " +:+ string_of_Z s) (Some (s, d)))
           "Failed to fetch balance") /\
  (forall r m c s d,
     Enhanced.approve base w req user [m0] = (Ok r, [m; c]) ->
     upstream w c = Reply s d -> ~ (200 <= s < 300)%Z ->
     r = Enhanced.relay_failure
           (AxiosError ("Request failed with status code " +:+ string_of_Z s) (Some (s, d)))
           "Payment approval failed") /\
  (forall r m c s d,
     Enhanced.complete base w req user [m0] = (Ok r, [m; c]) ->
     upstream w c = Reply s d -> ~ (200 <= s < 300)%Z ->
     r = Enhanced.relay_failure
           (AxiosError ("Request failed with status code " +:+ string_of_Z s) (Some (s, d)))
           "Payment completion failed").
Proof.
  repeat split;
    unfold Enhanced.balance, Enhanced.approve, Enhanced.complete;
    run_handler; close_relay m0.
Qed.



(** ** Completing a payment *)

Lemma server_complete_success w req user calls r calls' :
  Server.complete w req user calls = (Ok r, calls') ->
  is_success r = true ->
  exists p,
    toString (field (body req) "paymentId") = Ok p /\
    calls' = (calls ++ [complete_call (Server.PI_API_URL (process_env w))
                          (Server.service_headers w) p (field (body req) "txid")])%list /\
    code r = 200%Z /\
    own (payload r) "payment_id" = Some (field (body req) "paymentId") /\
    own (payload r) "txid" = Some (field (body req) "txid").
Proof.
  unfold Server.complete, try_catch, bind, lift, ret, axios_post, axios.
  destruct (truthy (field (body req) "paymentId")) eqn:E1; simpl;
    [|intros [= <- <-]; discriminate].
  destruct (truthy (field (body req) "txid")) eqn:E2; simpl;
    [|intros [= <- <-]; discriminate].
  apply truthy_defined in E1, E2.
  destruct (toString _) as [p|e] eqn:Ep; simpl; [|intros [= <- <-]; discriminate].
  destruct (settle _) as [a|e]; simpl; [|intros [= <- <-]; discriminate].
  destruct (get (data a) "status") as [v1|e]; simpl; [|intros [= <- <-]; discriminate].
  destruct (get (data a) "transaction") as [v2|e]; simpl; [|intros [= <- <-]; discriminate].
  intros [= <- <-] _. exists p. split; [reflexivity|]. split; [reflexivity|].
  split; [reflexivity|]. unfold json. simpl. rewrite E1, E2.
  destruct (defined v1); simpl; split; reflexivity.
Qed.

Lemma enhanced_complete_success base w req user calls r calls' :
  Enhanced.complete base w req user calls = (Ok r, calls') ->
  is_success r = true ->
  exists p,
    toString (field (body req) "paymentId") = Ok p /\
    calls' = (calls ++ [complete_call base (Enhanced.service_headers w) p
                          (field (body req) "txid")])%list /\
    code r = 200%Z /\
    own (payload r) "payment_id" = Some (field (body req) "paymentId") /\
    own (payload r) "txid" = Some (field (body req) "txid").
Proof.
  unfold Enhanced.complete, try_catch, bind, lift, ret, axios_post, axios.
  destruct (truthy (field (body req) "paymentId")) eqn:E1; simpl;
    [|intros [= <- <-]; discriminate].
  destruct (truthy (field (body req) "txid")) eqn:E2; simpl;
    [|intros [= <- <-]; discriminate].
  apply truthy_defined in E1, E2.
  destruct (toString _) as [p|e] eqn:Ep; simpl.
  2:{ intros [= <- <-] H. rewrite relay_failure_failure in H by eauto. discriminate. }
  destruct (settle _) as [a|e] eqn:Es; simpl.
  2:{ intros [= <- <-] H. rewrite relay_failure_failure in H by eauto. discriminate. }
  destruct (get (data a) "status") as [v1|e] eqn:Eg; simpl.
  2:{ intros [= <- <-] H. rewrite relay_failure_failure in H by eauto. discriminate. }
  intros [= <- <-] _. exists p. split; [reflexivity|]. split; [reflexivity|].
  split; [reflexivity|]. unfold json. simpl. rewrite E1, E2.
  destruct (defined v1); simpl; split; reflexivity.
Qed.



(** ** Payment details *)

Lemma get_defined_ok d k : d <> JNull -> d <> JUndefined -> get d k = Ok (get_opt d k).
Proof. intros H1 H2. destruct d; simpl; congruence. Qed.



(** ** Validation of the payment id *)

(** A required field that is present but falsy ([null], [false], [0] or the
    empty string) stops an approve or complete request exactly like a
    missing one, in both servers: a verified caller gets 400 with an
    invalid-input message, and the identity call stays the only outbound
    call. *)
Theorem falsy_fields_are_rejected_like_missing_ones base w req :
  stops_at_validation req = true ->
  (forall user calls0,
     Server.authenticatePiRequest w req [] = (Ok (Next user), calls0) ->
     exists m,
       Server.serve w req = (Ok {| code := 400; payload := [("error", JStr m)] |}, calls0) /\
       class_of_message class_table m = Some InvalidInput) /\
  (forall user calls0,
     Enhanced.authenticatePiRequest base w req [] = (Ok (Next user), calls0) ->
     exists m,
       Enhanced.serve base w req
       = (Ok {| code := 400; payload := [("error", JStr m)] |}, calls0) /\
       class_of_message class_table m = Some InvalidInput).
Proof.
  unfold stops_at_validation. intros Hv. split; intros user calls0 Ha.
  - unfold Server.serve, Server.app.
    destruct (route req); try discriminate; rewrite server_guarded_run, Ha.
    + apply negb_true_iff in Hv. rewrite server_approve_falsy_id by exact Hv.
      eexists. split; reflexivity.
    + rewrite <- negb_andb in Hv. apply negb_true_iff in Hv.
      rewrite server_complete_falsy_field by exact Hv.
      eexists. split; reflexivity.
  - unfold Enhanced.serve, Enhanced.app.
    destruct (route req); try discriminate; rewrite enhanced_guarded_run, Ha.
    + apply negb_true_iff in Hv. rewrite enhanced_approve_falsy_id by exact Hv.
      eexists. split; reflexivity.
    + rewrite <- negb_andb in Hv. apply negb_true_iff in Hv.
      rewrite enhanced_complete_falsy_field by exact Hv.
      eexists. split; reflexivity.
Qed.

Lemma falsy_fields_witness :
  (exists m,
     Server.serve Samples.world
       (Samples.request PostComplete (Some "Bearer abc")
          [("paymentId", JStr "p1"); ("txid", JNum 0)])
     = (Ok {| code := 400; payload := [("error", JStr m)] |}, [me_call Samples.base "abc"]) /\
     class_of_message class_table m = Some InvalidInput) /\
  (exists m,
     Enhanced.serve Samples.base Samples.world
       (Samples.request PostApprove (Some "Bearer abc") [("paymentId", JNull)])
     = (Ok {| code := 400; payload := [("error", JStr m)] |}, [me_call Samples.base "abc"]) /\
     class_of_message class_table m = Some InvalidInput).
Proof.
  split.
  - destruct (falsy_fields_are_rejected_like_missing_ones Samples.base Samples.world
                (Samples.request PostComplete (Some "Bearer abc")
                   [("paymentId", JStr "p1"); ("txid", JNum 0)]) eq_refl) as [Hs _].
    apply (Hs {| uid := JStr "u1"; username := JStr "alice"; walletAddress := JUndefined |}).
    vm_compute. reflexivity.
  - destruct (falsy_fields_are_rejected_like_missing_ones Samples.base Samples.world
                (Samples.request PostApprove (Some "Bearer abc") [("paymentId", JNull)])
                eq_refl) as [_ He].
    apply (He {| uid := JStr "u1"; username := JStr "alice"; walletAddress := JUndefined |}).
    vm_compute. reflexivity.
Defined.

Lemma server_approve_forwards w req user calls p :
  truthy (field (body req) "paymentId") = true ->
  toString (field (body req) "paymentId") = Ok p ->
  snd (Server.approve w req user calls)
  = (calls ++ [approve_call (Server.PI_API_URL (process_env w))
                 (Server.service_headers w) p])%list.
Proof.
  intros Ht Hp. unfold Server.approve, try_catch. rewrite Ht. cbn [negb].
  unfold bind at 1, lift at 1. rewrite Hp.
  unfold axios_post. rewrite bind_axios.
  fold (approve_call (Server.PI_API_URL (process_env w)) (Server.service_headers w) p).
  destruct (settle _) as [a|e]; [|reflexivity].
  unfold bind, lift, ret.
  destruct (get (data a) "status"); [|reflexivity].
  destruct (get (data a) "amount"); [|reflexivity].
  destruct (get (data a) "memo"); reflexivity.
Qed.

(** A payment id that is truthy but not a string (a number, [true], an
    array, an object) is treated differently by the two servers: the
    enhanced variant answers a verified caller 400 "Invalid payment ID" and
    calls nothing beyond the identity check, while [src/server.js] prints
    the value into the URL, as JavaScript prints it (a number beyond 2^53
    as the double it was parsed to), and posts the approval for it. *)
Theorem only_the_enhanced_variant_insists_on_string_ids base w req :
  route req = PostApprove ->
  truthy (field (body req) "paymentId") = true ->
  Enhanced.is_string (field (body req) "paymentId") = false ->
  (forall user calls0,
     Enhanced.authenticatePiRequest base w req [] = (Ok (Next user), calls0) ->
     Enhanced.serve base w req
     = (Ok {| code := 400; payload := [("error", JStr "Invalid payment ID")] |}, calls0)) /\
  (forall user calls0 p,
     Server.authenticatePiRequest w req [] = (Ok (Next user), calls0) ->
     toString (field (body req) "paymentId") = Ok p ->
     snd (Server.serve w req)
     = (calls0 ++ [approve_call (Server.PI_API_URL (process_env w))
                     (Server.service_headers w) p])%list).
Proof.
  intros Hroute Ht Hs. split.
  - intros user calls0 Ha. unfold Enhanced.serve, Enhanced.app.
    rewrite Hroute, enhanced_guarded_run, Ha.
    unfold Enhanced.approve, try_catch. rewrite Ht, Hs. reflexivity.
  - intros user calls0 p Ha Hp. unfold Server.serve, Server.app.
    rewrite Hroute, server_guarded_run, Ha.
    apply server_approve_forwards; assumption.
Qed.

Lemma string_ids_witness :
  Enhanced.serve Samples.base Samples.world
    (Samples.request PostApprove (Some "Bearer abc")
       [("paymentId", JNum 12345678901234567890)])
  = (Ok {| code := 400; payload := [("error", JStr "Invalid payment ID")] |},
     [me_call Samples.base "abc"]) /\
  snd (Server.serve Samples.world
         (Samples.request PostApprove (Some "Bearer abc")
            [("paymentId", JNum 12345678901234567890)]))
  = [me_call Samples.base "abc";
     approve_call Samples.base (Server.service_headers Samples.world)
       "12345678901234567000"].
Proof.
  destruct (only_the_enhanced_variant_insists_on_string_ids Samples.base Samples.world
              (Samples.request PostApprove (Some "Bearer abc")
                 [("paymentId", JNum 12345678901234567890)])
              eq_refl eq_refl eq_refl) as [He Hs].
  split.
  - apply (He {| uid := JStr "u1"; username := JStr "alice"; walletAddress := JUndefined |}).
    vm_compute. reflexivity.
  - apply (Hs {| uid := JStr "u1"; username := JStr "alice"; walletAddress := JUndefined |}
             [me_call Samples.base "abc"] "12345678901234567000");
      vm_compute; reflexivity.
Defined.


(** ** The service credential *)

Lemma env_set_some (o : option string) :
  env_set o = true -> exists v, o = Some v /\ v <> EmptyString /\ env_text o = v.
Proof.
  destruct o as [v|]; simpl; [|discriminate].
  intros H. exists v. split; [reflexivity|]. split; [|reflexivity].
  intros ->. discriminate.
Qed.

(** A server that came up holds a non-empty API key and a non-empty
    origin, and every service call of either server sends exactly
    [Authorization: Key <that key>] with a JSON content type: a started
    server never sends "Key undefined". *)
Theorem started_server_sends_its_key w :
  crashed (Server.start (process_env w)) = false ->
  exists key origin,
    process_env w !! "PI_API_KEY" = Some key /\ key <> EmptyString /\
    process_env w !! "FRONTEND_URL" = Some origin /\ origin <> EmptyString /\
    crashed (Enhanced.start (process_env w)) = false /\
    Server.service_headers w
    = [("Authorization", "Key " +:+ key); ("Content-Type", "application/json")] /\
    Enhanced.service_headers w = Server.service_headers w.
Proof.
  intros H. rewrite server_start_crashed in H.
  apply orb_false_iff in H as [Hk Ho]. unfold missing in Hk, Ho.
  apply negb_false_iff in Hk, Ho.
  destruct (env_set_some _ Hk) as (key & Hkey & Hne & Htext).
  destruct (env_set_some _ Ho) as (origin & Horigin & Hno & _).
  exists key, origin. repeat split; try assumption.
  - rewrite enhanced_start_crashed. unfold missing. rewrite Hk, Ho. reflexivity.
  - unfold Server.service_headers. rewrite Htext. reflexivity.
Qed.

Lemma started_server_witness :
  exists key origin,
    process_env Samples.world !! "PI_API_KEY" = Some key /\ key <> EmptyString /\
    process_env Samples.world !! "FRONTEND_URL" = Some origin /\ origin <> EmptyString /\
    crashed (Enhanced.start (process_env Samples.world)) = false /\
    Server.service_headers Samples.world
    = [("Authorization", "Key " +:+ key); ("Content-Type", "application/json")] /\
    Enhanced.service_headers Samples.world = Server.service_headers Samples.world.
Proof.
  apply started_server_sends_its_key. vm_compute. reflexivity.
Defined.

(** ** Diagnostics *)

(** Details of a fault are shown in development mode only.  When the
    identity call of [src/server.js] gets no answer, the 500 answer carries
    the fault's message as [details] exactly when NODE_ENV is
    "development".  The error-handling middleware of [src/server.js] never
    shows the fault; that of the enhanced variant adds its [message] in
    development mode and sends [error] alone otherwise, the undefined
    [message] being dropped from the body. *)
Theorem diagnostics_only_in_development w req h reason :
  headers req !! "authorization" = Some h ->
  startsWith h "Bearer " = true ->
  server_protected (route req) = true ->
  upstream w (me_call (Server.PI_API_URL (process_env w)) (access_token h))
  = NoReply reason ->
  Server.serve w req
  = (Ok {| code := 500;
           payload := ("error", JStr "Authentication failed")
                      :: if env_is (process_env w !! "NODE_ENV") "development"
                         then [("details", JStr reason)]
                         else [] |},
     [me_call (Server.PI_API_URL (process_env w)) (access_token h)]) /\
  (forall err,
     payload (Server.error_handler err) = [("error", JStr "Internal server error")] /\
     payload (Enhanced.error_handler w err)
     = ("error", JStr "Internal server error")
       :: if env_is (process_env w !! "NODE_ENV") "development"
          then [("message", JStr (message err))]
          else []).
Proof.
  intros Hh Hb Hp Hr. split.
  - rewrite server_protected_run by exact Hp.
    rewrite server_guarded_run, (server_auth_bearer w req h) by assumption.
    rewrite Hr. unfold verdict. simpl.
    unfold Server.authentication_failed. simpl.
    destruct (env_is _ _); reflexivity.
  - intros err. split; [reflexivity|].
    unfold Enhanced.error_handler. simpl.
    destruct (env_is _ _); reflexivity.
Qed.

Lemma diagnostics_witness :
  Server.serve
    {| process_env := <["NODE_ENV" := "development"]> Samples.env;
       upstream := fun _ => NoReply "connect ECONNREFUSED";
       now := "2024-01-01T00:00:00.000Z" |}
    (Samples.request GetBalance (Some "Bearer abc") [])
  = (Ok {| code := 500;
           payload := [("error", JStr "Authentication failed");
                       ("details", JStr "connect ECONNREFUSED")] |},
     [me_call Samples.base "abc"]).
Proof.
  destruct (diagnostics_only_in_development
              {| process_env := <["NODE_ENV" := "development"]> Samples.env;
                 upstream := fun _ => NoReply "connect ECONNREFUSED";
                 now := "2024-01-01T00:00:00.000Z" |}
              (Samples.request GetBalance (Some "Bearer abc") [])
              "Bearer abc" "connect ECONNREFUSED") as [H _].
  - vm_compute. reflexivity.
  - reflexivity.
  - reflexivity.
  - reflexivity.
  - rewrite H. vm_compute. reflexivity.
Defined.

(** * The two servers side by side *)

Lemma catch_answers_side_by_side w req e :
  caught e ->
  same_contract (Server.authentication_failed w e) (Enhanced.authentication_failed e) \/
  departs w req (Server.authentication_failed w e) (Enhanced.authentication_failed e).
Proof.
  intros He. pose proof (caught_not_success e He) as Hs.
  unfold Server.authentication_failed, Enhanced.authentication_failed,
    Enhanced.relay_failure.
  rewrite !send_failure_status by exact Hs.
  destruct (status_or_500 e =? 304)%Z eqn:E.
  - left. split; reflexivity.
  - destruct (env_is (process_env w !! "NODE_ENV") "development") eqn:Hdev.
    + right. right. right. left. split; [exact Hdev|].
      reflexivity.
    + left. split; [reflexivity|]. unfold shape, json. simpl.
      rewrite upstream_message_defined. reflexivity.
Qed.

Lemma middleware_side_by_side w req :
  exists a1 a2 calls,
    Server.authenticatePiRequest w req [] = (Ok a1, calls) /\
    Enhanced.authenticatePiRequest (Server.PI_API_URL (process_env w)) w req []
    = (Ok a2, calls) /\
    verdicts_agree w req a1 a2.
Proof.
  destruct (bearer_cases req) as [Hb|(h & Hh & Hb)].
  - rewrite server_auth_unauthenticated, enhanced_auth_unauthenticated by exact Hb.
    do 3 eexists. split; [reflexivity|]. split; [reflexivity|]. left. split; reflexivity.
  - rewrite (server_auth_bearer w req h), (enhanced_auth_bearer w _ req h) by assumption.
    do 3 eexists. split; [reflexivity|]. split; [reflexivity|].
    unfold verdict.
    destruct (settle _) as [a|e] eqn:Es; simpl;
      [|apply catch_answers_side_by_side; eauto].
    destruct (get (data a) "uid") as [u|e] eqn:Eg; simpl;
      [|apply catch_answers_side_by_side; eauto].
    destruct (truthy u); simpl; [reflexivity|]. left. split; reflexivity.
Qed.

Lemma relay_against_500 w req e m fallback :
  caught e ->
  same_contract {| code := 500; payload := [("error", JStr m)] |}
    (Enhanced.relay_failure e fallback) \/
  departs w req {| code := 500; payload := [("error", JStr m)] |}
    (Enhanced.relay_failure e fallback).
Proof.
  intros He. pose proof (caught_failure e He) as Hf.
  destruct (status_or_500 e =? 500)%Z eqn:E.
  - left. apply Z.eqb_eq in E. unfold Enhanced.relay_failure. rewrite E.
    split; [reflexivity|]. unfold shape, send, json. simpl.
    rewrite upstream_message_defined. reflexivity.
  - right. do 4 right. left. split; [reflexivity|]. split; [exact Hf|].
    simpl. lia.
Qed.

(** Closes one pair of leaves of two handlers run side by side. *)
Ltac impossible_read :=
  exfalso;
  match goal with
  | H1 : get ?d _ = Ok _, H2 : get ?d _ = Throw _ |- _ =>
      rewrite (get_ok_any _ _ _ _ H1) in H2; discriminate H2
  end.

Ltac close_side_by_side Hroute :=
  first [ solve [impossible_read] | idtac ];
  do 4 eexists; split; [reflexivity|split; [reflexivity|]];
  first
    [ left; split; reflexivity
    | apply relay_against_500; eauto
    | right; do 3 right; left;
      split; [reflexivity|split; [reflexivity|]];
      first [ left; exact Hroute
            | right; left; reflexivity
            | right; right; left; reflexivity
            | right; right; right; reflexivity ]
    | right; do 5 right; split; [reflexivity|simpl; lia] ].

Lemma handlers_side_by_side w req user :
  (route req = GetBalance ->
   handlers_agree w req (Server.balance w req user)
     (Enhanced.balance (Server.PI_API_URL (process_env w)) w req user)) /\
  (route req = PostApprove ->
   handlers_agree w req (Server.approve w req user)
     (Enhanced.approve (Server.PI_API_URL (process_env w)) w req user)) /\
  (route req = PostComplete ->
   handlers_agree w req (Server.complete w req user)
     (Enhanced.complete (Server.PI_API_URL (process_env w)) w req user)).
Proof.
  repeat split; intros Hroute calls;
    unfold Server.balance, Server.approve, Server.complete,
      Enhanced.balance, Enhanced.approve, Enhanced.complete,
      Enhanced.service_headers, Enhanced.PI_API_KEY, Server.service_headers;
    run_handler; first [ solve [impossible_read] | close_side_by_side Hroute ].
Qed.

Lemma payment_route_side_by_side w req p :
  route req = GetPayment p ->
  exists r1 c1,
    Server.serve w req = (Ok r1, c1) /\
    (same_contract r1 Enhanced.not_found \/ departs w req r1 Enhanced.not_found).
Proof.
  intros Hroute.
  assert (Hout : forall r1 : Response, code r1 <> 404%Z ->
            same_contract r1 Enhanced.not_found \/ departs w req r1 Enhanced.not_found).
  { intros r1 H. right. right. left. split; [eauto|exact H]. }
  unfold Server.serve, Server.app. rewrite Hroute, server_guarded_run.
  destruct (bearer_cases req) as [Hb|(h & Hh & Hb)].
  - rewrite server_auth_unauthenticated by exact Hb.
    do 2 eexists. split; [reflexivity|]. apply Hout. discriminate.
  - rewrite (server_auth_bearer w req h) by assumption.
    destruct (verdict _ _ _) as [r0|user] eqn:Ev.
    + do 2 eexists. split; [reflexivity|].
      destruct (verdict_answered_cases _ _ _ _ Ev) as [(e & He & ->)| ->];
        [|apply Hout; discriminate].
      pose proof (caught_not_success e He) as Hs.
      destruct (status_or_500 e =? 404)%Z eqn:E; [|apply Hout; simpl; lia].
      apply Z.eqb_eq in E.
      destruct (env_is (process_env w !! "NODE_ENV") "development") eqn:Hdev.
      * right. right. right. left. split; [exact Hdev|].
        unfold Server.authentication_failed. rewrite E, Hdev. reflexivity.
      * left. unfold Server.authentication_failed. rewrite E, Hdev.
        split; reflexivity.
    + destruct (server_handlers_answer w req user) as (_ & _ & _ & H4).
      destruct (H4 p ([] ++ [me_call (Server.PI_API_URL (process_env w)) (access_token h)])%list)
        as (r1 & c1 & Hrun & _).
      exists r1, c1. split; [exact Hrun|]. apply Hout.
      destruct (server_handlers_codes w req user) as (_ & _ & _ & H).
      destruct (H p _ _ _ Hrun) as [Hc|[Hc|Hc]]; rewrite Hc; discriminate.
Qed.

(** Either the two answers agree in status and field names, or the request
    is in one of the situations of [departs]. *)
Lemma variants_agree_or_depart w req :
  exists r1 r2 c1 c2,
    Server.serve w req = (Ok r1, c1) /\
    Enhanced.serve (Server.PI_API_URL (process_env w)) w req = (Ok r2, c2) /\
    ((code r1 = code r2 /\ shape r1 = shape r2) \/ departs w req r1 r2).
Proof.
  destruct (route req) as [| | |p| |] eqn:Hroute.
  1-3: unfold Server.serve, Server.app, Enhanced.serve, Enhanced.app;
       rewrite Hroute, server_guarded_run, enhanced_guarded_run;
       destruct (middleware_side_by_side w req) as (a1 & a2 & calls & H1 & H2 & Hv);
       rewrite H1, H2;
       destruct a1 as [r1|u1], a2 as [r2|u2]; simpl in Hv; try contradiction;
       [ exists r1, r2, calls, calls; auto
       | subst u2;
         destruct (handlers_side_by_side w req u1) as (Hb & Ha & Hc);
         first [ exact (Hb Hroute calls) | exact (Ha Hroute calls) | exact (Hc Hroute calls) ] ].
  - destruct (payment_route_side_by_side w req p Hroute) as (r1 & c1 & Hrun & H).
    exists r1, Enhanced.not_found, c1, []. split; [exact Hrun|]. split; [|exact H].
    unfold Enhanced.serve, Enhanced.app. rewrite Hroute. reflexivity.
  - unfold Server.serve, Server.app, Enhanced.serve, Enhanced.app. rewrite Hroute.
    do 4 eexists. split; [reflexivity|]. split; [reflexivity|].
    right. left. exact Hroute.
  - unfold Server.serve, Server.app, Enhanced.serve, Enhanced.app. rewrite Hroute.
    do 4 eexists. split; [reflexivity|]. split; [reflexivity|].
    left. split; reflexivity.
Qed.

(** ** Where the two servers depart, they do differ *)

Lemma own_same_keys (l1 l2 : list (string * JsVal)) k :
  List.map fst l1 = List.map fst l2 ->
  match own l1 k with Some _ => true | None => false end
  = match own l2 k with Some _ => true | None => false end.
Proof.
  revert l2. induction l1 as [|[k1 v1] l1 IH]; intros [|[k2 v2] l2]; simpl;
    try discriminate; [reflexivity|].
  intros [= -> H]. destruct (String.eqb k2 k); [reflexivity|]. apply IH. exact H.
Qed.

Lemma same_shape_same_fields r1 r2 k :
  shape r1 = shape r2 -> has_field k r1 = has_field k r2.
Proof. unfold shape, has_field. apply own_same_keys. Qed.

Lemma send_error_fields c v rest k :
  String.eqb "error" k = false ->
  existsb (String.eqb k) (List.map fst rest) = false ->
  has_field k (send c (("error", v) :: rest)) = false.
Proof.
  intros Hk Hrest. unfold has_field, send. cbn [payload].
  destruct (bodiless c); [reflexivity|].
  rewrite own_json_absent; [reflexivity|]. simpl.
  rewrite String.eqb_sym, Hk. exact Hrest.
Qed.

Lemma relay_lacks_server_fields e fallback :
  lacks_server_fields (Enhanced.relay_failure e fallback).
Proof.
  unfold lacks_server_fields, Enhanced.relay_failure.
  repeat split; apply send_error_fields; reflexivity.
Qed.

Lemma enhanced_handlers_lack base w req user :
  (forall calls r c, Enhanced.balance base w req user calls = (Ok r, c) ->
                     lacks_server_fields r) /\
  (forall calls r c, Enhanced.approve base w req user calls = (Ok r, c) ->
                     lacks_server_fields r) /\
  (forall calls r c, Enhanced.complete base w req user calls = (Ok r, c) ->
                     lacks_server_fields r).
Proof.
  repeat apply conj; intros until calls;
    unfold Enhanced.balance, Enhanced.approve, Enhanced.complete;
    run_handler; intros ? ? [= <- <-];
    first [ apply relay_lacks_server_fields | repeat split ].
Qed.

Lemma enhanced_approve_timestamp base w req user calls r c :
  Enhanced.approve base w req user calls = (Ok r, c) ->
  is_success r = true -> has_field "timestamp" r = true.
Proof.
  revert r c. unfold Enhanced.approve. run_handler; intros ? ? [= <- <-] Hs;
    first [ reflexivity
          | rewrite relay_failure_failure in Hs by eauto; discriminate Hs
          | vm_compute in Hs; discriminate Hs ].
Qed.

Lemma server_approve_no_timestamp w req user calls r c :
  Server.approve w req user calls = (Ok r, c) -> has_field "timestamp" r = false.
Proof.
  revert r c. unfold Server.approve. run_handler; intros ? ? [= <- <-]; reflexivity.
Qed.

Lemma enhanced_serve_lacks_server_fields base w req r c :
  Enhanced.serve base w req = (Ok r, c) -> lacks_server_fields r.
Proof.
  unfold Enhanced.serve, Enhanced.app.
  destruct (route req) eqn:Hroute;
    try (intros [= <- <-]; repeat split; fail);
    rewrite enhanced_guarded_run;
    (destruct (bearer_cases req) as [Hb|(h & Hh & Hb)];
     [ rewrite enhanced_auth_unauthenticated by exact Hb;
       intros [= <- <-]; repeat split
     | rewrite (enhanced_auth_bearer w base req h) by assumption;
       destruct (verdict _ _ _) as [r0|user] eqn:Ev;
       [ intros [= <- <-];
         destruct (verdict_answered_cases _ _ _ _ Ev) as [(e & He & ->)| ->];
         [apply relay_lacks_server_fields|repeat split]
       | destruct (enhanced_handlers_lack base w req user) as (H1 & H2 & H3); eauto ] ]).
Qed.

Lemma enhanced_approve_success_has_timestamp base w req r c :
  route req = PostApprove ->
  Enhanced.serve base w req = (Ok r, c) ->
  is_success r = true -> has_field "timestamp" r = true.
Proof.
  intros Hroute. unfold Enhanced.serve, Enhanced.app.
  rewrite Hroute, enhanced_guarded_run.
  destruct (enhanced_auth_outcome base w req) as (a & calls0 & Ha & Hfail). rewrite Ha.
  destruct a as [r0|user].
  - intros [= <- <-] Hs. congruence.
  - apply enhanced_approve_timestamp.
Qed.

Lemma server_approve_has_no_timestamp w req r c :
  route req = PostApprove ->
  Server.serve w req = (Ok r, c) -> has_field "timestamp" r = false.
Proof.
  intros Hroute. unfold Server.serve, Server.app. rewrite Hroute, server_guarded_run.
  destruct (bearer_cases req) as [Hb|(h & Hh & Hb)].
  - rewrite server_auth_unauthenticated by exact Hb. intros [= <- <-]. reflexivity.
  - rewrite (server_auth_bearer w req h) by assumption.
    destruct (verdict _ _ _) as [r0|user] eqn:Ev.
    + intros [= <- <-].
      destruct (verdict_answered_cases _ _ _ _ Ev) as [(e & He & ->)| ->];
        [|reflexivity].
      unfold Server.authentication_failed. apply send_error_fields; [reflexivity|].
      destruct (env_is _ _); reflexivity.
    + apply server_approve_no_timestamp.
Qed.

Lemma departures_are_differences w req r1 r2 c1 c2 :
  Server.serve w req = (Ok r1, c1) ->
  Enhanced.serve (Server.PI_API_URL (process_env w)) w req = (Ok r2, c2) ->
  departs w req r1 r2 ->
  ~ (code r1 = code r2 /\ shape r1 = shape r2).
Proof.
  intros H1 H2 Hd [Hc Hsh].
  destruct (enhanced_serve_lacks_server_fields _ w req r2 c2 H2)
    as (Ld & Lv & La & Ll & Le).
  assert (Hf : forall k, has_field k r1 = has_field k r2)
    by (intros k; apply same_shape_same_fields; exact Hsh).
  destruct Hd as [Hr|[[(p & Hr) Hn]|[[_ Hdet]|[(S1 & S2 & Hw)|[(E1 & _ & E2)|(E1 & E2)]]]]].
  - unfold Server.serve, Server.app in H1. rewrite Hr in H1. injection H1 as <- <-.
    rewrite <- Hf in Le. discriminate Le.
  - unfold Enhanced.serve, Enhanced.app in H2. rewrite Hr in H2. injection H2 as <- <-.
    apply Hn. exact Hc.
  - rewrite Hf in Hdet. congruence.
  - destruct Hw as [Hr|[Hw|[Hw|Hw]]]; try (rewrite Hf in Hw; congruence).
    pose proof (enhanced_approve_success_has_timestamp _ w req r2 c2 Hr H2 S2) as T2.
    pose proof (server_approve_has_no_timestamp w req r1 c1 Hr H1) as T1.
    rewrite Hf in T1. congruence.
  - congruence.
  - congruence.
Qed.


